(** * SmartAttend: attendance processing endpoint and upload job lifecycle

    Shallow embedding of
    - the standalone API server (the [POST /api/process-attendance] handler:
      CSV tokenising, cell cleaning, the oracle call, parsing of its reply and
      the result summary), and
    - the upload controller ([uploadFile] / [processFileAsync]: the life cycle
      of one [FileUpload] record, PENDING, PROCESSING, COMPLETED or FAILED).

    JavaScript strings are sequences of UTF-16 code units, numbers are IEEE
    binary64 floats, exceptions are an explicit error result. *)

From Stdlib Require Import ZArith NArith List String Ascii Bool Lia.
From Stdlib Require Import Floats Uint63 Sorted Permutation OrdersEx.
From stdpp Require Import gmap.
Import ListNotations.

Set Warnings "-register-all,-inexact-float".
Set Default Proof Using "Type".

(* ===================================================================== *)
(** ** JavaScript strings *)
(* ===================================================================== *)

Module JsString.
Local Open Scope N_scope.

(** A string value: the sequence of its UTF-16 code units. *)
Definition code_unit := N.
Definition jsstring := list code_unit.

(** A source literal written in ASCII, as a string value.  Rocq string
    literals have no escapes: ["\n"] below is the two characters backslash
    and [n], which is also what the source literal ['\\n'] denotes. *)
Definition js (s : string) : jsstring :=
  List.map N_of_ascii (list_ascii_of_string s).

Definition QUOTE : code_unit := 34.      (* the double quote *)
Definition COMMA : code_unit := 44.
Definition LBRACE : code_unit := 123.
Definition RBRACE : code_unit := 125.

(** WhiteSpace and LineTerminator code points of ECMAScript: what
    [String.prototype.trim] removes.  All of them are single code units. *)
Definition is_white_space (c : code_unit) : bool :=
  (c =? 9) || (c =? 10) || (c =? 11) || (c =? 12) || (c =? 13) || (c =? 32)
  || (c =? 160) || (c =? 5760) || ((8192 <=? c) && (c <=? 8202))
  || (c =? 8232) || (c =? 8233) || (c =? 8239) || (c =? 8287)
  || (c =? 12288) || (c =? 65279).

Fixpoint trim_start (s : jsstring) : jsstring :=
  match s with
  | c :: s' => if is_white_space c then trim_start s' else s
  | [] => []
  end.

Definition trim_end (s : jsstring) : jsstring :=
  List.rev (trim_start (List.rev s)).

(** [s.trim()] *)
Definition trim (s : jsstring) : jsstring := trim_end (trim_start s).

(** Removal of one leading code unit [c], when there is one: a match of
    [/^c/]. *)
Definition drop_leading (c : code_unit) (s : jsstring) : jsstring :=
  match s with
  | d :: s' => if d =? c then s' else s
  | [] => []
  end.

(** Removal of one trailing code unit [c]: a match of [/c$/]. *)
Definition drop_trailing (c : code_unit) (s : jsstring) : jsstring :=
  List.rev (drop_leading c (List.rev s)).

(** [s.replace(/^"|"$/g, '')]: the global replace visits the string from
    left to right; the first alternative can match at index 0 only, the
    second at the last code unit only, and a quote consumed by the first is
    not seen again by the second. *)
Definition strip_quotes (s : jsstring) : jsstring :=
  drop_trailing QUOTE (drop_leading QUOTE s).

(** [is_prefix p s]: [s.startsWith(p)]. *)
Fixpoint is_prefix (p s : jsstring) : bool :=
  match p, s with
  | [], _ => true
  | a :: p', b :: s' => (a =? b) && is_prefix p' s'
  | _ :: _, [] => false
  end.

(** [s.split(sep)] for a non-empty separator: the pieces between the
    non-overlapping occurrences of [sep], scanned from the left.  [skip]
    counts the code units of a matched separator still to be passed over,
    [cur] is the current piece, reversed. *)
Fixpoint split_from (sep : jsstring) (skip : nat) (cur : jsstring)
    (s : jsstring) : list jsstring :=
  match s with
  | [] => [List.rev cur]
  | c :: s' =>
      match skip with
      | S k => split_from sep k cur s'
      | O =>
          if is_prefix sep s
          then List.rev cur :: split_from sep (Nat.pred (List.length sep)) [] s'
          else split_from sep O (c :: cur) s'
      end
  end.

Definition split (sep s : jsstring) : list jsstring := split_from sep O [] s.

(** Index of the first occurrence of [c], as the suffix starting there. *)
Fixpoint from_first (c : code_unit) (s : jsstring) : option jsstring :=
  match s with
  | [] => None
  | d :: s' => if d =? c then Some s else from_first c s'
  end.

(** [s.match(/\{[\s\S]*\}/)]: the leftmost opening brace from which a
    closing brace can still be reached, extended greedily to the last closing
    brace of the string.  [None] is the [null] of a failed match. *)
Definition match_braces (s : jsstring) : option jsstring :=
  match from_first LBRACE s with
  | None => None
  | Some t =>
      match from_first RBRACE (List.rev t) with
      | None => None
      | Some u => Some (List.rev u)
      end
  end.

End JsString.

(* ===================================================================== *)
(** ** JavaScript values, exceptions, and the platform functions *)
(* ===================================================================== *)

Module JsValue.
Import JsString.

(** The values [JSON.parse] can produce, and [undefined]. *)
Inductive jsval : Type :=
| VUndefined
| VNull
| VBool (b : bool)
| VNum (x : float)
| VStr (s : jsstring)
| VArr (items : list jsval)
| VObj (fields : list (jsstring * jsval)).

(** Exceptions that the modelled code can meet. *)
Inductive exn : Type :=
| TypeError
| SyntaxError
| OracleError (message : jsstring).   (* network failure, timeout, HTTP error *)

(** A computation that returns or throws. *)
Inductive result (A : Type) : Type :=
| Ok (a : A)
| Throw (e : exn).
Arguments Ok {A} a.
Arguments Throw {A} e.

Definition bind {A B : Type} (m : result A) (k : A -> result B) : result B :=
  match m with
  | Ok a => k a
  | Throw e => Throw e
  end.

(** [try m catch { h }] *)
Definition try_catch {A : Type} (m : result A) (h : A) : A :=
  match m with
  | Ok a => a
  | Throw _ => h
  end.

(** ToBoolean *)
Definition truthy (v : jsval) : bool :=
  match v with
  | VUndefined | VNull => false
  | VBool b => b
  | VNum x => negb (PrimFloat.is_zero x || PrimFloat.is_nan x)
  | VStr s => negb (Nat.eqb (List.length s) 0)
  | VArr _ | VObj _ => true
  end.

(** Own property of a parsed object. *)
Fixpoint lookup_field (k : jsstring) (fields : list (jsstring * jsval)) : jsval :=
  match fields with
  | [] => VUndefined
  | (k', v) :: rest => if decide (k = k') then v else lookup_field k rest
  end.

(** [v.k] for a key [k] that no built-in prototype defines ([matches],
    [unmatched], [confidence]): a TypeError on [null] and [undefined], the own
    property of an object, [undefined] on every other value. *)
Definition get (v : jsval) (k : jsstring) : result jsval :=
  match v with
  | VUndefined | VNull => Throw TypeError
  | VObj fields => Ok (lookup_field k fields)
  | _ => Ok VUndefined
  end.

(** [a || b] *)
Definition or_else (a b : jsval) : jsval := if truthy a then a else b.

(** ToNumber on the values for which it needs no string parsing. *)
Definition number_like (v : jsval) : option float :=
  match v with
  | VUndefined => Some PrimFloat.nan
  | VNull => Some PrimFloat.zero
  | VBool b => Some (if b then PrimFloat.one else PrimFloat.zero)
  | VNum x => Some x
  | VStr _ | VArr _ | VObj _ => None
  end.

(** The number of elements of an array, as a number value. *)
Definition length_number {A : Type} (l : list A) : float :=
  PrimFloat.of_uint63 (Uint63.of_Z (Z.of_nat (List.length l))).

(** Functions of the JavaScript platform that the server calls and that are
    not part of the repository. *)
Class Platform : Type := {
  (** [JSON.parse(text)]; [None] is the SyntaxError. *)
  JSON_parse : jsstring -> option jsval;
  (** [a + b] when an operand is a string, an array or an object: the
      concatenation of the operands' string conversions (TypeError when an
      object has no primitive conversion). *)
  string_plus : jsval -> jsval -> result jsval;
  (** ToNumber of a string, an array or an object. *)
  ToNumber : jsval -> result float
}.

Section Operators.
Context `{Platform}.

(** [a + b] *)
Definition js_plus (a b : jsval) : result jsval :=
  match number_like a, number_like b with
  | Some x, Some y => Ok (VNum (PrimFloat.add x y))
  | _, _ => string_plus a b
  end.

(** [a / n] for a number [n] *)
Definition js_div (a : jsval) (n : float) : result float :=
  match number_like a with
  | Some x => Ok (PrimFloat.div x n)
  | None => bind (ToNumber a) (fun x => Ok (PrimFloat.div x n))
  end.

(** [items.reduce((sum, m) => f(sum, m), init)] *)
Fixpoint reduce (f : jsval -> jsval -> result jsval) (items : list jsval)
    (acc : jsval) : result jsval :=
  match items with
  | [] => Ok acc
  | m :: rest => bind (f acc m) (reduce f rest)
  end.

End Operators.

End JsValue.

Declare Scope js_scope.
Delimit Scope js_scope with js.
Notation "'let*' x ':=' m 'in' k" := (JsValue.bind m (fun x => k))
  (at level 10, x name, m at level 200, k at level 200, only parsing) : js_scope.

(* ===================================================================== *)
(** ** The API server: [POST /api/process-attendance] *)
(* ===================================================================== *)

Module SimpleServer.
Import JsString JsValue.
Local Open Scope js_scope.

(** One entry of the student database. *)
Record Student : Type := {
  student_id : N;
  student_name : jsstring;
  student_email : jsstring
}.

(** The [csvData] field of the request body. *)
Inductive csv_field : Type :=
| CsvMissing                 (* absent, or a falsy value that is not a string *)
| CsvText (text : jsstring)
| CsvOther.                  (* a truthy value that is not a string *)

(** [req.body]: [students] is the array sent by the client, empty when the
    field is absent; [options] is whatever the client sent. *)
Record request_body : Type := {
  csvData : csv_field;
  students : list Student;
  options : jsval
}.

(** What the prompt is built from: the student database, the header row and
    the slice of the data rows. *)
Record oracle_request : Type := {
  prompt_students : list Student;
  prompt_headers : list jsstring;
  prompt_rows : list (list jsstring)
}.

(** [deepseek.chat.completions.create]: the awaited call throws, or returns
    a completion whose [choices[0]?.message?.content] is a string or is
    missing. *)
Definition oracle : Type := oracle_request -> result (option jsstring).

(** [processingResult.data] together with [ai_raw_response]. *)
Record processing_result : Type := {
  totalRows : nat;
  headers : list jsstring;
  matches : jsval;
  unmatched : jsval;
  confidence : float;
  ai_raw_response : option jsstring
}.

Inductive error_message : Type :=
| CsvDataRequired            (* 'CSV data is required' *)
| CsvTooShort                (* 'CSV must contain headers and at least one data row' *)
| Thrown (e : exn).          (* error.message of a caught exception *)

(** The response of the handler, before it is serialised and without its
    readings of the clock ([Sending.sent] adds both): [processingResult]
    with [success: true], or an error body with [success: false], and the
    HTTP status. *)
Inductive response : Type :=
| Success (status : nat) (r : processing_result)
| Failure (status : nat) (msg : error_message).

(** [cell.trim().replace(/^"|"$/g, '')] *)
Definition clean_cell (cell : jsstring) : jsstring := strip_quotes (trim cell).

(** The first code unit of [s] is white space; is a double quote. *)
Definition head_space (s : jsstring) : bool :=
  match s with
  | c :: _ => is_white_space c
  | [] => false
  end.
Definition head_quote (s : jsstring) : bool :=
  match s with
  | c :: _ => N.eqb c QUOTE
  | [] => false
  end.

(** A cell that neither begins nor ends with white space or with a double
    quote. *)
Definition bare (s : jsstring) : bool :=
  negb (head_space s) && negb (head_space (List.rev s))
  && negb (head_quote s) && negb (head_quote (List.rev s)).

(** The number of commas of a line. *)
Definition commas (line : jsstring) : nat := List.count_occ N.eq_dec line COMMA.

(** The cells of one line: [row.split(',').map(cell => ...)]. *)
Definition cells (line : jsstring) : list jsstring :=
  List.map clean_cell (split (js ",") line).

(** [row.some(cell => cell.length > 0)] *)
Definition some_nonempty (row : list jsstring) : bool :=
  List.existsb (fun cell => Nat.ltb 0 (List.length cell)) row.

(** [csvData.split('\\n').map(row => row.split(',').map(...)).filter(...)]:
    the separator of the rows is the two code units backslash and [n]. *)
Definition parse_csv (csv : jsstring) : list (list jsstring) :=
  List.filter some_nonempty (List.map cells (split (js "\n") csv)).

Definition mkStudent (i : N) (n e : string) : Student :=
  {| student_id := i; student_name := js n; student_email := js e |}.

(** The built-in sample student database. *)
Definition sampleStudents : list Student :=
  [ mkStudent 1 "John Smith" "john.smith@university.edu";
    mkStudent 2 "Emily Johnson" "emily.johnson@university.edu";
    mkStudent 3 "Michael Brown" "michael.brown@university.edu";
    mkStudent 4 "Sarah Davis" "sarah.davis@university.edu";
    mkStudent 5 "David Wilson" "david.wilson@university.edu" ].

(** [students.length > 0 ? students : [ ... ]] *)
Definition directory (body : request_body) : list Student :=
  if Nat.ltb 0 (List.length (students body)) then students body
  else sampleStudents.

(** The header row and the data rows of a request whose [csvData] is a
    string: [rows[0]] and [rows.slice(1)]. *)
Definition header_of (csv : jsstring) : list jsstring := List.hd [] (parse_csv csv).
Definition data_rows (csv : jsstring) : list (list jsstring) := List.tl (parse_csv csv).

(** The request of the oracle call: the directory, the header row and
    [dataRows.slice(0, 10)]. *)
Definition prompt_for (body : request_body) (csv : jsstring) : oracle_request :=
  {| prompt_students := directory body;
     prompt_headers := header_of csv;
     prompt_rows := List.firstn 10 (data_rows csv) |}.

(** The same request body with other [options]. *)
Definition with_options (o : jsval) (body : request_body) : request_body :=
  {| csvData := csvData body; students := students body; options := o |}.


(** The sum [0 + c1 + ... + cn] of the reduce, in the order of the array. *)
Definition running_sum (cs : list float) : float :=
  List.fold_left PrimFloat.add cs PrimFloat.zero.

(** [{ matches: [], unmatched: [] }] *)
Definition fallback : jsval :=
  VObj [ (js "matches", VArr []); (js "unmatched", VArr []) ].

Section Handler.
Context `{Platform}.

(** The inner [try]/[catch] around the extraction of the reply: the match of
    the brace pattern and [JSON.parse]; a reply without content makes
    [aiResponseText.match] a TypeError, caught like the SyntaxError. *)
Definition parse_reply (aiResponseText : option jsstring) : jsval :=
  try_catch
    (match aiResponseText with
     | None => Throw TypeError
     | Some text =>
         match match_braces text with
         | Some jsonMatch =>
             match JSON_parse jsonMatch with
             | Some v => Ok v
             | None => Throw SyntaxError
             end
         | None => Ok fallback
         end
     end)
    fallback.

(** The reply cannot be turned into an object: it has no content, or its
    text holds no span from an opening to a closing brace, or [JSON.parse]
    rejects that span. *)
Definition unparsable (aiResponseText : option jsstring) : Prop :=
  match aiResponseText with
  | None => True
  | Some text =>
      match match_braces text with
      | None => True
      | Some jsonMatch => JSON_parse jsonMatch = None
      end
  end.

(** [(sum, m) => sum + m.confidence] *)
Definition add_confidence (sum m : jsval) : result jsval :=
  let* c := get m (js "confidence") in js_plus sum c.

(** [aiResult.matches ? aiResult.matches.reduce(..., 0) /
    aiResult.matches.length : 0]; only an array has a callable [reduce]. *)
Definition overall_confidence (aiResult : jsval) : result float :=
  let* m := get aiResult (js "matches") in
  if truthy m then
    match m with
    | VArr items =>
        let* sum := reduce add_confidence items (VNum PrimFloat.zero) in
        js_div sum (length_number items)
    | _ => Throw TypeError
    end
  else Ok PrimFloat.zero.

(** The body of the outer [try].  [!csvData] holds of a missing field and of
    the empty string; a truthy value that is not a string has no [split] to
    call.  The [options] of the request are bound and never read. *)
Definition handle (ask : oracle) (body : request_body) : result response :=
  match csvData body with
  | CsvMissing | CsvText [] => Ok (Failure 400 CsvDataRequired)
  | CsvOther => Throw TypeError
  | CsvText csv =>
      if Nat.ltb (List.length (parse_csv csv)) 2
      then Ok (Failure 400 CsvTooShort)
      else
        let headers := header_of csv in
        let dataRows := data_rows csv in
        let* aiResponseText := ask (prompt_for body csv) in
        let aiResult := parse_reply aiResponseText in
        let* ms := get aiResult (js "matches") in
        let* us := get aiResult (js "unmatched") in
        let* conf := overall_confidence aiResult in
        Ok (Success 200
              {| totalRows := List.length dataRows;
                 headers := headers;
                 matches := or_else ms (VArr []);
                 unmatched := or_else us (VArr []);
                 confidence := conf;
                 ai_raw_response := aiResponseText |})
  end.

(** The handler with its outer [catch]: status 500 and the error's message. *)
Definition process_attendance (ask : oracle) (body : request_body) : response :=
  match handle ask body with
  | Ok resp => resp
  | Throw e => Failure 500 (Thrown e)
  end.

End Handler.

End SimpleServer.

(* ===================================================================== *)
(** ** What the endpoint sends: serialisation and the clock *)
(* ===================================================================== *)

Module Sending.
Import JsString JsValue SimpleServer.
Local Open Scope Z_scope.

(** A number as [res.json] writes it: [JSON.stringify] writes NaN and the
    two infinities as [null]. *)
Inductive json_number : Type :=
| JsonNull
| JsonNumber (x : float).

Definition stringify_number (x : float) : json_number :=
  if PrimFloat.is_finite x then JsonNumber x else JsonNull.

(** The clock of the server: the reading, in milliseconds, of the first,
    second, ... call of [Date.now()] or [new Date()] during the request. *)
Definition clock : Type := nat -> Z.

(** The body sent with its status: the result, with [data.confidence] as it
    is written, [data.processingTime] and [timestamp]; or an error body,
    which carries a [timestamp] when it comes from the outer [catch]. *)
Inductive sent : Type :=
| SentResult (status : nat) (r : processing_result)
    (confidence_written : json_number) (processingTime timestamp : Z)
| SentError (status : nat) (msg : error_message) (timestamp : option Z).

Section Respond.
Context `{Platform}.

(** The handler with what it reads from the clock: on success
    [Date.now() - Date.now()], the left operand read first, then
    [new Date()]; in the outer [catch] one [new Date()], the first reading
    of the request, nothing before it having read the clock. *)
Definition respond (now : clock) (ask : oracle) (body : request_body) : sent :=
  match handle ask body with
  | Ok (Success st r) =>
      SentResult st r (stringify_number (confidence r))
        (now 0%nat - now 1%nat) (now 2%nat)
  | Ok (Failure st msg) => SentError st msg None
  | Throw e => SentError 500 (Thrown e) (Some (now 0%nat))
  end.

End Respond.


End Sending.

(* ===================================================================== *)
(** ** The upload controller: [uploadFile] and [processFileAsync] *)
(* ===================================================================== *)

Module Controller.

(** [enum ProcessingStatus] of the schema. *)
Inductive ProcessingStatus : Type := PENDING | PROCESSING | COMPLETED | FAILED.

Record MatchedRecord : Type := {
  originalName : string;
  studentId : string;
  studentName : string;
  confidence : float;
  method : string
}.

Record UnmatchedRecord : Type := {
  unmatchedName : string;
  reason : string
}.

(** [AIMatchingResult]: what [processAttendanceMatching] resolves with. *)
Record AIMatchingResult : Type := {
  matches : list MatchedRecord;
  unmatched : list UnmatchedRecord
}.

(** The columns of a [FileUpload] row that the controller writes. *)
Record FileUpload : Type := {
  fileName : string;
  processingStatus : ProcessingStatus;
  processingResult : option AIMatchingResult;
  processingErrors : option string
}.

(** The primary key, [@id @default(cuid())]. *)
Definition file_id : Type := string.

(** The row created by [uploadFile]. *)
Definition pending (name : string) : FileUpload :=
  {| fileName := name; processingStatus := PENDING;
     processingResult := None; processingErrors := None |}.

(** [data: { processingStatus: 'PROCESSING' }] *)
Definition claimed (f : FileUpload) : FileUpload :=
  {| fileName := fileName f; processingStatus := PROCESSING;
     processingResult := processingResult f;
     processingErrors := processingErrors f |}.

(** [data: { processingStatus: 'COMPLETED', processingResult: result, ... }] *)
Definition completed (r : AIMatchingResult) (f : FileUpload) : FileUpload :=
  {| fileName := fileName f; processingStatus := COMPLETED;
     processingResult := Some r;
     processingErrors := processingErrors f |}.

(** [data: { processingStatus: 'FAILED', processingErrors: { message, ... } }] *)
Definition failed (message : string) (f : FileUpload) : FileUpload :=
  {| fileName := fileName f; processingStatus := FAILED;
     processingResult := processingResult f;
     processingErrors := Some message |}.

(** Where one call of [processFileAsync] stands: each constructor is the
    [await] it is about to pass. *)
Inductive position : Type :=
| AtClaim                              (* the update to PROCESSING *)
| AtRead                               (* [readCsvFile] *)
| AtMatch (csvData : string)           (* [processAttendanceMatching] *)
| AtSave (result : AIMatchingResult)   (* [Promise.all] of the record creates *)
| AtComplete (result : AIMatchingResult)  (* the update to COMPLETED *)
| AtFail (message : string)            (* in [catch]: the update to FAILED *)
| Returned.

(** The [file_uploads] table and the running calls of [processFileAsync],
    by the [fileId] each was started with. *)
Record system : Type := {
  file_uploads : gmap file_id FileUpload;
  running : gmap file_id position
}.

Definition initial : system := {| file_uploads := ∅; running := ∅ |}.

(** One call of [processFileAsync(fileId, ...)] passing one [await]: the
    awaited operation resolves, or it throws and control moves to the
    [catch] block.  [prisma.fileUpload.update] changes the row only when it
    resolves, and throws when the row does not exist. *)
Inductive processFileAsync_step (fileId : file_id) :
    gmap file_id FileUpload * position ->
    gmap file_id FileUpload * position -> Prop :=
| claim_resolves db f :
    db !! fileId = Some f ->
    processFileAsync_step fileId (db, AtClaim) (<[fileId := claimed f]> db, AtRead)
| claim_throws db message :
    processFileAsync_step fileId (db, AtClaim) (db, AtFail message)
| read_resolves db csvData :
    processFileAsync_step fileId (db, AtRead) (db, AtMatch csvData)
| read_throws db message :
    processFileAsync_step fileId (db, AtRead) (db, AtFail message)
| match_resolves db csvData result :
    processFileAsync_step fileId (db, AtMatch csvData) (db, AtSave result)
| match_throws db csvData message :
    processFileAsync_step fileId (db, AtMatch csvData) (db, AtFail message)
| save_resolves db result :
    processFileAsync_step fileId (db, AtSave result) (db, AtComplete result)
| save_throws db result message :
    processFileAsync_step fileId (db, AtSave result) (db, AtFail message)
| complete_resolves db f result :
    (* followed by [logger.info], which returns *)
    db !! fileId = Some f ->
    processFileAsync_step fileId (db, AtComplete result)
      (<[fileId := completed result f]> db, Returned)
| complete_throws db result message :
    processFileAsync_step fileId (db, AtComplete result) (db, AtFail message)
| fail_resolves db f message :
    db !! fileId = Some f ->
    processFileAsync_step fileId (db, AtFail message)
      (<[fileId := failed message f]> db, Returned)
| fail_throws db message :
    (* the rejection of the update in [catch] is not handled *)
    processFileAsync_step fileId (db, AtFail message) (db, Returned).

(** One step of the server, as far as the [file_uploads] table is concerned. *)
Inductive step : system -> system -> Prop :=
| step_uploadFile s id name :
    (* [uploadFile]: [prisma.fileUpload.create] under a generated,
       unused id, then [this.processFileAsync(fileUpload.id, ...)] *)
    file_uploads s !! id = None ->
    step s {| file_uploads := <[id := pending name]> (file_uploads s);
              running := <[id := AtClaim]> (running s) |}
| step_processFileAsync s id p db' p' :
    running s !! id = Some p ->
    processFileAsync_step id (file_uploads s, p) (db', p') ->
    step s {| file_uploads := db'; running := <[id := p']> (running s) |}
| step_other s :
    (* the status query and the other endpoints leave the table as it is *)
    step s s.

(** Any number of steps. *)
Inductive steps : system -> system -> Prop :=
| steps_refl s : steps s s
| steps_cons s1 s2 s3 : step s1 s2 -> steps s2 s3 -> steps s1 s3.

(** A call of [processFileAsync] that can still write. *)
Definition pending_write (p : position) : Prop := p <> Returned.

(** What holds of every state the server can reach: a call is running only
    for an existing row, and while it can still write, its row is not
    COMPLETED. *)
Definition consistent (s : system) : Prop :=
  forall id p, running s !! id = Some p ->
    exists f, file_uploads s !! id = Some f /\
      (pending_write p -> processingStatus f <> COMPLETED).

End Controller.

(* ===================================================================== *)
(** ** Concrete requests, replies and runs *)
(* ===================================================================== *)

Module Examples.
Import JsString JsValue SimpleServer.
Local Open Scope string_scope.
Local Open Scope list_scope.

(** A JSON string literal: the text between two double quotes. *)
Definition quoted (s : string) : jsstring := QUOTE :: js s ++ [QUOTE].

(** A cell wrapped in two pairs of double quotes. *)
Definition doubly_quoted : jsstring := [QUOTE; QUOTE] ++ js "a" ++ [QUOTE; QUOTE].

(** A header and one data row carrying the email of the sample student
    John Smith. *)
Definition roster_csv : jsstring :=
  js "Name,Email\nJ. Smith,john.smith@university.edu".



(** A header and eleven data rows, and the same file with a twelfth. *)
Definition eleven_rows_csv : jsstring :=
  js "Name\na\nb\nc\nd\ne\nf\ng\nh\ni\nj\nk".
Definition twelve_rows_csv : jsstring := eleven_rows_csv ++ js "\nl".

(** A header without data rows. *)
Definition header_only_csv : jsstring := js "Name,Email,Status".

(** The request the bundled page sends: the file's text and its options. *)
Definition upload_of (csv : jsstring) : request_body :=
  {| csvData := CsvText csv;
     students := [];
     options := VObj [ (js "confidence_threshold", VNum 0.7%float) ] |}.

(** A reply without any JSON object. *)
Definition prose_reply : jsstring := js "Sorry, I cannot match these names.".

Definition match_record (orig id name : string) (conf : float) (meth : string)
    : jsval :=
  VObj [ (js "originalName", VStr (js orig));
         (js "studentId", VStr (js id));
         (js "studentName", VStr (js name));
         (js "confidence", VNum conf);
         (js "method", VStr (js meth)) ].

Definition match_text (orig id name conf meth : string) : jsstring :=
  js "{" ++ quoted "originalName" ++ js ":" ++ quoted orig ++ js ","
  ++ quoted "studentId" ++ js ":" ++ quoted id ++ js ","
  ++ quoted "studentName" ++ js ":" ++ quoted name ++ js ","
  ++ quoted "confidence" ++ js ":" ++ js conf ++ js ","
  ++ quoted "method" ++ js ":" ++ quoted meth ++ js "}".

Definition reply_text (ms : jsstring) : jsstring :=
  js "{" ++ quoted "matches" ++ js ":[" ++ ms ++ js "],"
  ++ quoted "unmatched" ++ js ":[]}".

Definition reply_value (ms : list jsval) : jsval :=
  VObj [ (js "matches", VArr ms); (js "unmatched", VArr []) ].

(** A reply that matches the row to Michael Brown with confidence 0.25. *)
Definition low_match : jsval :=
  match_record "J. Smith" "3" "Michael Brown" 0.25%float "pattern".
Definition low_reply : jsstring :=
  reply_text (match_text "J. Smith" "3" "Michael Brown" "0.25" "pattern").

(** A reply that matches the row to John Smith with confidence 1. *)
Definition exact_match : jsval :=
  match_record "J. Smith" "1" "John Smith" 1%float "exact".
Definition exact_reply : jsstring :=
  reply_text (match_text "J. Smith" "1" "John Smith" "1" "exact").

(** [JSON.parse] tabulated on the two replies above, each with the value it
    denotes; the examples submit no other text to it. *)
Definition tabulated_parse (text : jsstring) : option jsval :=
  if decide (text = low_reply) then Some (reply_value [low_match])
  else if decide (text = exact_reply) then Some (reply_value [exact_match])
  else None.

(** The platform of the examples.  None of them adds or divides a value that
    is not a number. *)
Definition example_platform : Platform :=
  {| JSON_parse := tabulated_parse;
     string_plus := fun _ _ => Throw TypeError;
     ToNumber := fun _ => Throw TypeError |}.

(** The oracle is unreachable or too slow: the call throws. *)
Definition timing_out : oracle :=
  fun _ => Throw (OracleError (js "Request timed out.")).

(** The oracle answers with the given text. *)
Definition answering (text : jsstring) : oracle := fun _ => Ok (Some text).


(** The result reported for a file of [n] data rows under the header [hdr]
    when the oracle's reply is not parsable. *)
Definition empty_result (n : nat) (hdr : list jsstring) (text : jsstring)
    : processing_result :=
  {| totalRows := n; headers := hdr;
     matches := VArr []; unmatched := VArr [];
     confidence := PrimFloat.nan;
     ai_raw_response := Some text |}.

(** The result reported when the oracle's reply is [low_reply]. *)
Definition low_result (n : nat) (hdr : list jsstring) : processing_result :=
  {| totalRows := n; headers := hdr;
     matches := VArr [low_match]; unmatched := VArr [];
     confidence := 0.25%float;
     ai_raw_response := Some low_reply |}.


(** The endpoint on the example platform. *)
Definition run (ask : oracle) (body : request_body) : response :=
  @process_attendance example_platform ask body.

(** A reply whose [matches] is the empty array, and a platform whose
    [JSON.parse] is tabulated on it. *)
Definition empty_reply : jsstring := reply_text [].
Definition empty_parse (text : jsstring) : option jsval :=
  if decide (text = empty_reply) then Some (reply_value []) else None.
Definition empty_platform : Platform :=
  {| JSON_parse := empty_parse;
     string_plus := fun _ _ => Throw TypeError;
     ToNumber := fun _ => Throw TypeError |}.

(** A clock that advances by one millisecond with every reading, started at
    [t]. *)
Definition ticking (t : Z) : Sending.clock := fun n => (t + Z.of_nat n)%Z.

(** What the endpoint sends on the example platform. *)
Definition send (now : Sending.clock) (ask : oracle) (body : request_body)
    : Sending.sent :=
  @Sending.respond example_platform now ask body.

End Examples.

(** A run of the controller: a file is uploaded and processed to the end,
    then the same file is uploaded again and its processing fails. *)
Module ControllerExamples.
Import Controller.
Local Open Scope string_scope.

Definition one_match : AIMatchingResult :=
  {| matches := [ {| originalName := "J. Smith"; studentId := "s-1";
                     studentName := "John Smith"; confidence := 1%float;
                     method := "exact" |} ];
     unmatched := [] |}.

(** The state after the call for [id] has passed an [await]. *)
Definition advance (id : file_id) (db' : gmap file_id FileUpload)
    (p' : position) (s : system) : system :=
  {| file_uploads := db'; running := <[id := p']> (running s) |}.

Definition rewrite_row (id : file_id) (g : FileUpload -> FileUpload)
    (s : system) : gmap file_id FileUpload :=
  match file_uploads s !! id with
  | Some f => <[id := g f]> (file_uploads s)
  | None => file_uploads s
  end.

Definition uploaded (id : file_id) (name : string) (s : system) : system :=
  {| file_uploads := <[id := pending name]> (file_uploads s);
     running := <[id := AtClaim]> (running s) |}.

Definition first_uploaded : system := uploaded "job-1" "roster.csv" initial.
Definition first_claimed : system :=
  advance "job-1" (rewrite_row "job-1" claimed first_uploaded) AtRead first_uploaded.
Definition first_read : system :=
  advance "job-1" (file_uploads first_claimed) (AtMatch "Name,Email") first_claimed.
Definition first_matched : system :=
  advance "job-1" (file_uploads first_read) (AtSave one_match) first_read.
Definition first_saved : system :=
  advance "job-1" (file_uploads first_matched) (AtComplete one_match) first_matched.
Definition first_completed : system :=
  advance "job-1" (rewrite_row "job-1" (completed one_match) first_saved)
    Returned first_saved.

Definition second_uploaded : system := uploaded "job-2" "roster.csv" first_completed.
Definition second_claimed : system :=
  advance "job-2" (rewrite_row "job-2" claimed second_uploaded) AtRead second_uploaded.
Definition second_thrown : system :=
  advance "job-2" (file_uploads second_claimed) (AtFail "ENOENT") second_claimed.
Definition second_failed : system :=
  advance "job-2" (rewrite_row "job-2" (failed "ENOENT") second_thrown)
    Returned second_thrown.

(** The row of the first job once it is COMPLETED. *)
Definition first_row : FileUpload :=
  {| fileName := "roster.csv"; processingStatus := COMPLETED;
     processingResult := Some one_match; processingErrors := None |}.

End ControllerExamples.

(* ===================================================================== *)
(** ** [readCsvFile]: the text handed to the matching service *)
(* ===================================================================== *)

Module CsvReader.
Import JsString.

Definition LF : code_unit := 10%N.

(** [parts.join(sep)] for an array of strings. *)
Fixpoint join (sep : jsstring) (parts : list jsstring) : jsstring :=
  match parts with
  | [] => []
  | [p] => p
  | p :: rest => p ++ sep ++ join sep rest
  end.

(** A row object emitted by the CSV stream: its entries in property order,
    the order of both [Object.keys] and [Object.values]. *)
Definition row : Type := list (jsstring * jsstring).

Definition keys (r : row) : list jsstring := List.map fst r.
Definition values (r : row) : list jsstring := List.map snd r.

(** One line of the text: the values of a row, comma-joined, and a line
    feed. *)
Definition line (r : row) : jsstring := join (js ",") (values r) ++ [LF].

(** The header line: the keys of a row. *)
Definition header_line (r : row) : jsstring := join (js ",") (keys r) ++ [LF].

(** The ['data'] callback: the header is written when [csvContent] is still
    empty, then the row's line is appended. *)
Definition on_data (csvContent : jsstring) (r : row) : jsstring :=
  let csvContent :=
    match csvContent with
    | [] => header_line r
    | _ :: _ => csvContent
    end in
  csvContent ++ line r.

(** The commas inside the values of a row. *)
Definition commas_inside (vs : list jsstring) : nat :=
  List.fold_right (fun v n => (SimpleServer.commas v + n)%nat) 0%nat vs.

(** The text [readCsvFile] resolves with when the stream has emitted the
    given rows and then ['end']. *)
Definition readCsvFile (rows : list row) : jsstring :=
  List.fold_left on_data rows [].

End CsvReader.

(* ===================================================================== *)
(** ** [processRecentTrends]: attendance per day *)
(* ===================================================================== *)

Module Trends.

(** [enum AttendanceStatus] of the schema. *)
Inductive AttendanceStatus : Type := PRESENT | ABSENT | LATE | EXCUSED.

(** A record as the analytics query selects it; [day] is
    [markedAt.toISOString().split('T')[0]]. *)
Record record : Type := { day : string; status : AttendanceStatus }.

(** The counters kept per day.  They are natural numbers here: they are far
    below 2^53, where adding 1 to a number is exact. *)
Record tally : Type := { present : nat; total : nat }.

(** A [Map] from days to counters, in insertion order. *)
Definition trend_map : Type := list (string * tally).

(** [trendMap.get(date)] *)
Fixpoint map_get (date : string) (m : trend_map) : option tally :=
  match m with
  | [] => None
  | (d, t) :: rest => if String.eqb date d then Some t else map_get date rest
  end.

(** [trendMap.set(date, t)]: an existing key keeps its place, a new key is
    added at the end. *)
Fixpoint map_set (date : string) (t : tally) (m : trend_map) : trend_map :=
  match m with
  | [] => [(date, t)]
  | (d, t0) :: rest =>
      if String.eqb date d then (d, t) :: rest
      else (d, t0) :: map_set date t rest
  end.

Definition is_present (st : AttendanceStatus) : bool :=
  match st with
  | PRESENT => true
  | _ => false
  end.

(** The body of [records.forEach]. *)
Definition count_record (m : trend_map) (r : record) : trend_map :=
  let existing :=
    match map_get (day r) m with
    | Some t => t
    | None => {| present := 0; total := 0 |}
    end in
  map_set (day r)
    {| present := (if is_present (status r) then S (present existing)
                   else present existing);
       total := S (total existing) |}
    m.

Definition trendMap (records : list record) : trend_map :=
  List.fold_left count_record records [].

Definition number_of_nat (n : nat) : float :=
  PrimFloat.of_uint63 (Uint63.of_Z (Z.of_nat n)).

(** [(present / total) * 100] *)
Definition percentage (present total : nat) : float :=
  PrimFloat.mul (PrimFloat.div (number_of_nat present) (number_of_nat total))
    100%float.

(** [data.total > 0 ? (data.present / data.total) * 100 : 0] *)
Definition attendance (t : tally) : float :=
  if Nat.ltb 0 (total t) then percentage (present t) (total t)
  else PrimFloat.zero.

Section Sorting.
(** [a.localeCompare(b)]: negative, zero or positive. *)
Variable localeCompare : string -> string -> Z.

(** [sort((a, b) => a.date.localeCompare(b.date))], as a stable insertion:
    an entry goes before the first one that it does not come after. *)
Fixpoint insert_by_date {A : Type} (x : string * A) (l : list (string * A))
    : list (string * A) :=
  match l with
  | [] => [x]
  | y :: rest =>
      if Z.leb (localeCompare (fst x) (fst y)) 0 then x :: y :: rest
      else y :: insert_by_date x rest
  end.

Definition sort_by_date {A : Type} (l : list (string * A)) : list (string * A) :=
  List.fold_right insert_by_date [] l.

(** [processRecentTrends(records)]: for each day its attendance percentage,
    ordered by day. *)
Definition processRecentTrends (records : list record) : list (string * float) :=
  sort_by_date
    (List.map (fun entry => (fst entry, attendance (snd entry)))
       (trendMap records)).

End Sorting.

(** The number of records of a day, and of those the present ones. *)
Definition records_on (d : string) (records : list record) : list record :=
  List.filter (fun r => String.eqb d (day r)) records.
Definition present_on (d : string) (records : list record) : list record :=
  List.filter (fun r => is_present (status r)) (records_on d records).

(** The counters a day should have: none without records. *)
Definition counted (d : string) (records : list record) : option tally :=
  match records_on d records with
  | [] => None
  | _ :: _ =>
      Some {| present := List.length (present_on d records);
              total := List.length (records_on d records) |}
  end.

(** The sum of the [total] counters of a map. *)
Definition sum_totals (m : trend_map) : nat :=
  List.fold_right (fun entry n => (total (snd entry) + n)%nat) 0%nat m.

End Trends.

(* ===================================================================== *)
(** ** Marking attendance: [authorize], [markAttendance], [markBulkAttendance] *)
(* ===================================================================== *)

Module Marking.
Import Trends.
Local Open Scope string_scope.

(** [enum Role] of the schema. *)
Inductive Role : Type := ADMIN | TEACHER | STUDENT.

Definition role_eqb (a b : Role) : bool :=
  match a, b with
  | ADMIN, ADMIN | TEACHER, TEACHER | STUDENT, STUDENT => true
  | _, _ => false
  end.

(** [req.user], as [authenticate] attaches it. *)
Record User : Type := { user_id : string; user_role : Role }.

(** The errors that reach [next]: an [ApiError] with its status code, the
    [ZodError] of a body that its schema rejects, or any other value
    thrown. *)
Inductive error : Type :=
| ApiError (message : string) (statusCode : nat)
| ZodError
| OtherError.

(** [new NotFoundError(message)] *)
Definition NotFoundError (message : string) : error := ApiError message 404.

(** What a handler does with the request: it sends a response itself, or
    its error goes to [next]. *)
Inductive reply : Type :=
| Json (status : nat) (count : nat)   (* [res.status(status).json(...)] *)
| Next (e : error).

(** The status [globalErrorHandler] answers an error with. *)
Definition statusCode_of (e : error) : nat :=
  match e with
  | ApiError _ code => code
  | ZodError => 400
  | OtherError => 500
  end.

Definition status_of (r : reply) : nat :=
  match r with
  | Json status _ => status
  | Next e => statusCode_of e
  end.

(** [authorize(roles)]: [None] is the call of [next()] without an error. *)
Definition authorize (roles : list Role) (user : option User) : option error :=
  match user with
  | None => Some (ApiError "Authentication required" 401)
  | Some u =>
      if List.existsb (role_eqb (user_role u)) roles then None
      else Some (ApiError "Insufficient permissions" 403)
  end.

Definition teacherOrAdmin : option User -> option error :=
  authorize [TEACHER; ADMIN].

(** The columns of a session that the handlers read. *)
Record Session : Type := { createdById : string; teacherId : option string }.

(** The columns of an attendance record beside its key, the pair of
    [sessionId] and [studentId], and its generated [id], which no update
    writes: those the handlers write, [matchedName], which they leave alone,
    and [markedAt], [createdAt] and [updatedAt], which are set when the row
    is created, [updatedAt] again with every update ([@updatedAt]). *)
Record AttendanceRecord : Type := {
  att_status : AttendanceStatus;
  notes : option string;
  aiMethod : option string;
  confidence : option float;
  matchedName : option string;
  verifiedBy : option string;
  verifiedAt : option N;
  markedAt : N;
  createdAt : N;
  updatedAt : N
}.

(** The tables: sessions and students by id, attendance records by their
    unique pair of session and student. *)
Record database : Type := {
  sessions : gmap string Session;
  students : gset string;
  attendance : gmap (string * string) AttendanceRecord
}.

Definition with_attendance (att : gmap (string * string) AttendanceRecord)
    (db : database) : database :=
  {| sessions := sessions db; students := students db; attendance := att |}.

(** [req.user.role !== Role.ADMIN && session.createdById !== req.user.id &&
    session.teacherId !== req.user.id] *)
Definition lacks_permission (u : User) (s : Session) : bool :=
  negb (role_eqb (user_role u) ADMIN)
  && negb (String.eqb (createdById s) (user_id u))
  && negb (match teacherId s with
           | Some t => String.eqb t (user_id u)
           | None => false
           end).

(** One entry of a bulk request, and the body of [markAttendance]. *)
Record mark : Type := {
  studentId : string;
  status : AttendanceStatus;
  mark_notes : option string
}.

(** The row [prisma.attendanceRecord.upsert] writes: an existing record
    gets the new status, verifier and time, and the new notes when the
    request has some (an undefined field of [update] leaves the column as it
    is), and its [updatedAt] is set anew; a new record is created as a
    manual one of confidence 1.  [now] is the time of the request. *)
Definition written_row (now : N) (u : User) (m : mark)
    (existing : option AttendanceRecord) : AttendanceRecord :=
  match existing with
  | Some r =>
      {| att_status := status m;
         notes := match mark_notes m with
                  | Some n => Some n
                  | None => notes r
                  end;
         aiMethod := aiMethod r;
         confidence := confidence r;
         matchedName := matchedName r;
         verifiedBy := Some (user_id u);
         verifiedAt := Some now;
         markedAt := markedAt r;
         createdAt := createdAt r;
         updatedAt := now |}
  | None =>
      {| att_status := status m;
         notes := mark_notes m;
         aiMethod := Some "manual";
         confidence := Some 1%float;
         matchedName := None;
         verifiedBy := Some (user_id u);
         verifiedAt := Some now;
         markedAt := now;
         createdAt := now;
         updatedAt := now |}
  end.

Definition upsert (now : N) (u : User) (sessionId : string) (m : mark)
    (att : gmap (string * string) AttendanceRecord)
    : gmap (string * string) AttendanceRecord :=
  <[(sessionId, studentId m) :=
      written_row now u m (att !! (sessionId, studentId m))]> att.

(** The same record, verified and updated at another time. *)
Definition verified_at (now : N) (r : AttendanceRecord) : AttendanceRecord :=
  {| att_status := att_status r; notes := notes r; aiMethod := aiMethod r;
     confidence := confidence r; matchedName := matchedName r;
     verifiedBy := verifiedBy r; verifiedAt := Some now;
     markedAt := markedAt r; createdAt := createdAt r; updatedAt := now |}.

(** The user may manage the session: an administrator, its creator or its
    teacher. *)
Definition manages (u : User) (s : Session) : Prop :=
  user_role u = ADMIN \/ createdById s = user_id u \/
  teacherId s = Some (user_id u).

(** The checks both handlers start with: the user, the body, the session
    and the permission on it.  [body] is the request body as its schema
    returns it, [None] when the schema rejects it. *)
Definition admitted {A : Type} (user : option User) (body : option A)
    (sessionId_of : A -> string) (db : database) : reply + (User * A) :=
  match user with
  | None => inl (Json 401 0)
  | Some u =>
      match body with
      | None => inl (Next ZodError)
      | Some data =>
          match sessions db !! sessionId_of data with
          | None => inl (Next (NotFoundError "Session not found"))
          | Some s =>
              if lacks_permission u s
              then inl (Next (ApiError
                     "Insufficient permissions to mark attendance for this session" 403))
              else inr (u, data)
          end
      end
  end.

(** [markAttendance], every call of the database resolving: the reply and
    the tables afterwards. *)
Definition markAttendance (now : N) (user : option User)
    (body : option (string * mark)) (db : database) : reply * database :=
  match admitted user body fst db with
  | inl refusal => (refusal, db)
  | inr (u, (sessionId, m)) =>
      if decide (studentId m ∈ students db)
      then (Json 201 1,
            with_attendance (upsert now u sessionId m (attendance db)) db)
      else (Next (NotFoundError "Student not found"), db)
  end.

(** [prisma.student.findMany({ where: { id: { in: studentIds } } })]: the
    students whose id is among the requested ones, each once. *)
Definition existingStudents (studentIds : list string) (db : database)
    : gset string :=
  filter (fun i => i ∈ studentIds) (students db).

(** [markBulkAttendance], every call of the database resolving: the reply
    and the tables afterwards. *)
Definition markBulkAttendance (now : N) (user : option User)
    (body : option (string * list mark)) (db : database) : reply * database :=
  match admitted user body fst db with
  | inl refusal => (refusal, db)
  | inr (u, (sessionId, records)) =>
      let studentIds := List.map studentId records in
      if decide (size (existingStudents studentIds db) = List.length studentIds)
      then (Json 201 (List.length records),
            with_attendance
              (List.fold_left (fun att m => upsert now u sessionId m att)
                 records (attendance db))
              db)
      else (Next (ApiError "One or more students not found" 400), db)
  end.

(** How the upserts of one request end: [resolves m] tells whether the
    upsert of [m] resolves, and [rejection] is what the awaited promise, the
    upsert or the [Promise.all] over the upserts, rejects with when one of
    them does not.  An upsert that rejects writes nothing, and [Promise.all]
    undoes none of those that resolve. *)
Record settling : Type := { resolves : mark -> bool; rejection : error }.

(** [markAttendance] when the upsert may reject. *)
Definition markAttendance_under (o : settling) (now : N) (user : option User)
    (body : option (string * mark)) (db : database) : reply * database :=
  match admitted user body fst db with
  | inl refusal => (refusal, db)
  | inr (u, (sessionId, m)) =>
      if decide (studentId m ∈ students db)
      then if resolves o m
           then (Json 201 1,
                 with_attendance (upsert now u sessionId m (attendance db)) db)
           else (Next (rejection o), db)
      else (Next (NotFoundError "Student not found"), db)
  end.

(** [markBulkAttendance] when upserts may reject: the tables are those left
    when every upsert has settled. *)
Definition markBulkAttendance_under (o : settling) (now : N)
    (user : option User) (body : option (string * list mark)) (db : database)
    : reply * database :=
  match admitted user body fst db with
  | inl refusal => (refusal, db)
  | inr (u, (sessionId, records)) =>
      let studentIds := List.map studentId records in
      if decide (size (existingStudents studentIds db) = List.length studentIds)
      then (if List.forallb (resolves o) records
            then Json 201 (List.length records)
            else Next (rejection o),
            with_attendance
              (List.fold_left (fun att m => upsert now u sessionId m att)
                 (List.filter (resolves o) records) (attendance db))
              db)
      else (Next (ApiError "One or more students not found" 400), db)
  end.

(** The columns of a user that [authenticate] reads and writes, and
    [updatedAt], set with every update ([@updatedAt]). *)
Record Account : Type := {
  account_role : Role;
  isActive : bool;
  lastLoginAt : option N;
  account_updatedAt : N
}.

(** What the [Authorization] header and [jwt.verify] give: no bearer token,
    a token that [jwt.verify] rejects, or the [id] of the decoded token. *)
Inductive credentials : Type :=
| NoToken
| InvalidToken
| Token (id : string).

(** [data: { lastLoginAt: new Date() }] *)
Definition logged_in (now : N) (a : Account) : Account :=
  {| account_role := account_role a; isActive := isActive a;
     lastLoginAt := Some now; account_updatedAt := now |}.

(** [authenticate]: the error passed to [next], or [req.user]; and the
    users afterwards.  The last login of an active user is written before
    any check of the role. *)
Definition authenticate (now : N) (c : credentials)
    (users : gmap string Account) : (error + User) * gmap string Account :=
  match c with
  | NoToken => (inl (ApiError "Access token required" 401), users)
  | InvalidToken => (inl (ApiError "Invalid access token" 401), users)
  | Token id =>
      match users !! id with
      | None => (inl (ApiError "User not found" 401), users)
      | Some a =>
          if isActive a
          then (inr {| user_id := id; user_role := account_role a |},
                <[id := logged_in now a]> users)
          else (inl (ApiError "Account is deactivated" 401), users)
      end
  end.

(** The routes [POST /mark] and [POST /bulk-mark]: [authenticate], then
    [teacherOrAdmin], then the handler.  The middleware of the application
    that runs before the router writes no table; the reads of the database
    are taken to resolve (one that rejects ends the request without a
    write). *)
Definition route {A : Type}
    (handler : option User -> option A -> database -> reply * database)
    (now : N) (c : credentials) (body : option A)
    (users : gmap string Account) (db : database)
    : reply * gmap string Account * database :=
  match authenticate now c users with
  | (inl e, users') => (Next e, users', db)
  | (inr u, users') =>
      match teacherOrAdmin (Some u) with
      | Some e => (Next e, users', db)
      | None =>
          let (r, db') := handler (Some u) body db in (r, users', db')
      end
  end.

(** The token is that of an active account that may write the attendance of
    the session: an administrator, or a teacher who created the session or
    teaches it. *)
Definition may_mark (users : gmap string Account)
    (sessions : gmap string Session) (c : credentials) (sid : string) : Prop :=
  exists id a s,
    c = Token id /\ users !! id = Some a /\ isActive a = true /\
    sessions !! sid = Some s /\
    (account_role a = ADMIN \/
     account_role a = TEACHER /\
     (createdById s = id \/ teacherId s = Some id)).

End Marking.

(* ===================================================================== *)
(** ** Security middleware: [corsOptions.origin] and [validateRequest] *)
(* ===================================================================== *)

Module Security.
Import JsString.
Local Open Scope string_scope.

(** [hay.includes(needle)] *)
Fixpoint includes (needle hay : jsstring) : bool :=
  is_prefix needle hay ||
  match hay with
  | [] => false
  | _ :: rest => includes needle rest
  end.

(** [config.cors.origin.split(',').map(origin => origin.trim())] *)
Definition allowedOrigins (cors_origin : jsstring) : list jsstring :=
  List.map trim (split (js ",") cors_origin).

(** [corsOptions.origin]: [true] is [callback(null, true)], [false] the
    error 'Not allowed by CORS'.  A request without an [Origin] header has
    [origin] undefined; [!origin] also holds of the empty string. *)
Definition origin_allowed (cors_origin : jsstring) (origin : option jsstring)
    : bool :=
  match origin with
  | None | Some [] => true
  | Some o =>
      bool_decide (o ∈ allowedOrigins cors_origin)
      || bool_decide (js "*" ∈ allowedOrigins cors_origin)
  end.

(** The parts of a request that [validateRequest] reads; a header that is
    not sent is [None]. *)
Record request : Type := {
  method : string;
  user_agent : option jsstring;
  content_type : option jsstring
}.

Inductive verdict : Type :=
| Proceed                               (* [next()] *)
| Rejected (status : nat) (error : string).

(** [!req.headers[header]] *)
Definition header_missing (h : option jsstring) : bool :=
  match h with
  | None | Some [] => true
  | Some _ => false
  end.

Definition allowedTypes : list jsstring :=
  [ js "application/json"; js "multipart/form-data";
    js "application/x-www-form-urlencoded" ].

(** [['POST', 'PUT', 'PATCH'].includes(req.method)] *)
Definition has_body (m : string) : bool :=
  String.eqb m "POST" || String.eqb m "PUT" || String.eqb m "PATCH".

Definition validateRequest (req : request) : verdict :=
  if header_missing (user_agent req) then Rejected 400 "INVALID_REQUEST"
  else if has_body (method req) then
    match content_type req with
    | None | Some [] => Rejected 400 "INVALID_REQUEST"
    | Some contentType =>
        if List.existsb (fun type => includes type contentType) allowedTypes
        then Proceed
        else Rejected 415 "UNSUPPORTED_MEDIA_TYPE"
    end
  else Proceed.

End Security.

(* ===================================================================== *)
(** ** The life cycle of a job, row by row *)
(* ===================================================================== *)

Module Lifecycle.
Import Controller.

(** A row without result and without errors, in one of the given states. *)
Definition blank (f : FileUpload) (states : list ProcessingStatus) : Prop :=
  In (processingStatus f) states /\
  processingResult f = None /\ processingErrors f = None.

(** What the position of a call of [processFileAsync] says about the row it
    was started for. *)
Definition fits (p : position) (f : FileUpload) : Prop :=
  match p with
  | AtClaim => blank f [PENDING]
  | AtRead | AtMatch _ | AtSave _ | AtComplete _ => blank f [PROCESSING]
  | AtFail _ => blank f [PENDING; PROCESSING]
  | Returned =>
      blank f [PENDING; PROCESSING] \/
      (processingStatus f = COMPLETED /\
       is_Some (processingResult f) /\ processingErrors f = None) \/
      (processingStatus f = FAILED /\
       processingResult f = None /\ is_Some (processingErrors f))
  end.

(** Every row has the call it was created with, the two fit, and there is
    no call without a row. *)
Definition well_formed (s : system) : Prop :=
  (forall id f, file_uploads s !! id = Some f ->
     exists p, running s !! id = Some p /\ fits p f) /\
  (forall id p, running s !! id = Some p -> is_Some (file_uploads s !! id)).

(** How far a job has come. *)
Definition rank (st : ProcessingStatus) : nat :=
  match st with
  | PENDING => 0
  | PROCESSING => 1
  | COMPLETED | FAILED => 2
  end.

End Lifecycle.

(* ===================================================================== *)
(** ** The upload request: [teacherOrAdmin], then [uploadFile] *)
(* ===================================================================== *)

Module Upload.
Import Controller Marking.
Local Open Scope string_scope.

(** What [upload.single('file')] leaves: the error of [fileFilter] for an
    extension outside [config.upload.allowedFileTypes], multer's own error
    for a file over [limits.fileSize], no [req.file], or the file with its
    [originalname] and the [uniqueSuffix] drawn for its name on disk. *)
Inductive upload_single : Type :=
| TypeNotAllowed
| TooLarge
| NoFile
| File (originalname uniqueSuffix : string).

(** [req.file.filename], from the [filename] callback of the storage:
    [`${uniqueSuffix}-${file.originalname}`]. *)
Definition filename (originalname uniqueSuffix : string) : string :=
  uniqueSuffix ++ "-" ++ originalname.

(** [req.body.sessionId]: missing or empty, rejected by [sessionIdSchema],
    or a well-formed id. *)
Inductive session_field : Type :=
| NoSession
| BadSessionId
| SessionId (id : string).

(** The access checks of [uploadFile] under [if (sessionId)]. *)
Definition session_refusal (sessions : gmap string Session) (u : User)
    (sessionId : session_field) : option error :=
  match sessionId with
  | NoSession => None
  | BadSessionId => Some ZodError
  | SessionId sid =>
      match sessions !! sid with
      | None => Some (NotFoundError "Session not found")
      | Some session =>
          if lacks_permission u session
          then Some (ApiError
                 "Insufficient permissions to upload to this session" 403)
          else None
      end
  end.

(** [uploadFile]: the reply and the state of the controller afterwards.
    [allowed] is [allowedTypes.join(', ')], [id] the id that
    [prisma.fileUpload.create] generates; the create throws when that id is
    taken, the error is thrown on and [handlePrismaError] answers it as a
    conflict.  Of the columns of the new row the controller's state keeps
    [fileName], which is [req.file.filename]. *)
Definition uploadFile (allowed : string) (sessions : gmap string Session)
    (id : file_id) (user : option User) (file : upload_single)
    (sessionId : session_field) (s : system) : reply * system :=
  match file with
  | TypeNotAllowed =>
      (Next (ApiError ("File type not allowed. Allowed types: " ++ allowed) 400), s)
  | TooLarge => (Next OtherError, s)
  | NoFile =>
      match user with
      | None => (Json 401 0, s)
      | Some _ => (Next (ApiError "No file uploaded" 400), s)
      end
  | File originalname uniqueSuffix =>
      match user with
      | None => (Json 401 0, s)
      | Some u =>
          match session_refusal sessions u sessionId with
          | Some e => (Next e, s)
          | None =>
              match file_uploads s !! id with
              | Some _ => (Next (ApiError "id already exists" 409), s)
              | None =>
                  (Json 201 1,
                   {| file_uploads :=
                        <[id := pending (filename originalname uniqueSuffix)]>
                          (file_uploads s);
                      running := <[id := AtClaim]> (running s) |})
              end
          end
      end
  end.

(** The route [POST /upload]: [authenticate], [teacherOrAdmin], the two rate
    limiters, each [true] when its limit is exceeded, then the handler. *)
Definition upload_route (now : N) (c : credentials)
    (uploadRateLimit aiProcessingRateLimit : bool)
    (allowed : string) (sessions : gmap string Session) (id : file_id)
    (file : upload_single) (sessionId : session_field)
    (users : gmap string Account) (s : system)
    : reply * gmap string Account * system :=
  match authenticate now c users with
  | (inl e, users') => (Next e, users', s)
  | (inr u, users') =>
      match teacherOrAdmin (Some u) with
      | Some e => (Next e, users', s)
      | None =>
          if uploadRateLimit then (Json 429 0, users', s)
          else if aiProcessingRateLimit then (Json 429 0, users', s)
          else
            let (r, s') :=
              uploadFile allowed sessions id (Some u) file sessionId s in
            (r, users', s')
      end
  end.

End Upload.

(* ===================================================================== *)
(** ** More concrete requests, tables and records *)
(* ===================================================================== *)

Module MoreExamples.
Import JsString JsValue.
Local Open Scope string_scope.
Local Open Scope list_scope.

(** Two replies that parse to objects of an unexpected shape: one without
    [matches], one whose [matches] is a string. *)
Definition bare_object_reply : jsstring := js "{}".
Definition string_matches_reply : jsstring :=
  js "{" ++ Examples.quoted "matches" ++ js ":" ++ Examples.quoted "none" ++ js "}".

(** [JSON.parse] tabulated on these two replies. *)
Definition shape_parse (text : jsstring) : option jsval :=
  if decide (text = bare_object_reply) then Some (VObj [])
  else if decide (text = string_matches_reply)
       then Some (VObj [ (js "matches", VStr (js "none")) ])
       else None.

Definition shape_platform : Platform :=
  {| JSON_parse := shape_parse;
     string_plus := fun _ _ => Throw TypeError;
     ToNumber := fun _ => Throw TypeError |}.

(** Records of three days, not in order. *)
Definition week : list Trends.record :=
  [ {| Trends.day := "2025-06-24"; Trends.status := Trends.PRESENT |};
    {| Trends.day := "2025-06-23"; Trends.status := Trends.ABSENT |};
    {| Trends.day := "2025-06-24"; Trends.status := Trends.LATE |};
    {| Trends.day := "2025-06-25"; Trends.status := Trends.PRESENT |};
    {| Trends.day := "2025-06-23"; Trends.status := Trends.PRESENT |} ].

(** A comparison of days: the order of their characters. *)
Definition by_characters (a b : string) : Z :=
  match String_as_OT.compare a b with
  | Lt => (-1)%Z
  | Eq => 0%Z
  | Gt => 1%Z
  end.

(** Ids as the request schemas want them. *)
Definition session_1 : string := "7c9e6679-7425-40de-944b-e07fc1f90ae7".
Definition student_1 : string := "0f8fad5b-d9cb-469f-a165-70867728950e".
Definition student_2 : string := "3f2504e0-4f89-41d3-9a0c-0305e82c3301".

(** A teacher, the session they created, and two students. *)
Definition teacher : Marking.User :=
  {| Marking.user_id := "t1"; Marking.user_role := Marking.TEACHER |}.

Definition school : Marking.database :=
  {| Marking.sessions :=
       {[ session_1 := {| Marking.createdById := "t1"; Marking.teacherId := None |} ]};
     Marking.students := {[ student_1; student_2 ]};
     Marking.attendance := ∅ |}.

Definition marked (student : string) (st : Trends.AttendanceStatus)
    : Marking.mark :=
  {| Marking.studentId := student; Marking.status := st;
     Marking.mark_notes := None |}.

(** A record that the matching created, with its method and confidence. *)
Definition matched_record : Marking.AttendanceRecord :=
  {| Marking.att_status := Trends.ABSENT;
     Marking.notes := Some "from upload";
     Marking.aiMethod := Some "ai";
     Marking.confidence := Some 0.75%float;
     Marking.matchedName := Some "J. Smith";
     Marking.verifiedBy := None;
     Marking.verifiedAt := None;
     Marking.markedAt := 3%N;
     Marking.createdAt := 3%N;
     Marking.updatedAt := 3%N |}.

Definition school_after_upload : Marking.database :=
  Marking.with_attendance {[ (session_1, student_1) := matched_record ]} school.

(** The tables after the teacher has marked both students present at
    time 5, and after marking the first of them at time 5. *)
Definition school_after_bulk : Marking.database :=
  snd (Marking.markBulkAttendance 5%N (Some teacher)
         (Some (session_1, [marked student_1 Trends.PRESENT; marked student_2 Trends.PRESENT]))
         school).
Definition school_after_mark : Marking.database :=
  snd (Marking.markAttendance 5%N (Some teacher)
         (Some (session_1, marked student_1 Trends.PRESENT)) school).
Definition school_after_correction : Marking.database :=
  snd (Marking.markAttendance 5%N (Some teacher)
         (Some (session_1, marked student_1 Trends.PRESENT)) school_after_upload).

(** The accounts: the teacher, and a student. *)
Definition staff : gmap string Marking.Account :=
  {[ "t1" := {| Marking.account_role := Marking.TEACHER;
                Marking.isActive := true;
                Marking.lastLoginAt := None;
                Marking.account_updatedAt := 1%N |};
     "u7" := {| Marking.account_role := Marking.STUDENT;
                Marking.isActive := true;
                Marking.lastLoginAt := None;
                Marking.account_updatedAt := 1%N |} ]}.

(** The controller after the teacher has uploaded a file for the session,
    at time 5. *)
Definition after_upload : Controller.system :=
  snd (Upload.upload_route 5%N (Marking.Token "t1") false false "csv, xlsx"
         (Marking.sessions school) "job-1"
         (Upload.File "roster.csv" "1719230000000-123456789")
         (Upload.SessionId session_1) staff Controller.initial).

(** Upserts that all resolve. *)
Definition all_resolve : Marking.settling :=
  {| Marking.resolves := fun _ => true; Marking.rejection := Marking.OtherError |}.

(** The student account asks, at time 5, to mark the first student
    present. *)
Definition student_attempt
    : Marking.reply * gmap string Marking.Account * Marking.database :=
  Marking.route (Marking.markAttendance_under all_resolve 5%N) 5%N
    (Marking.Token "u7") (Some (session_1, marked student_1 Trends.PRESENT))
    staff school.

(** A configured list of origins, the second entry after a blank. *)
Definition configured_origins : list jsstring :=
  [ js "http://localhost:8080"; js " http://localhost:3001" ].

End MoreExamples.

(* ===================================================================== *)
(** ** Facts about the tokenizer and the cell cleaning *)
(* ===================================================================== *)

Module CsvFacts.
Import JsString JsValue SimpleServer.

(** *** Trimming and quote stripping never lengthen a string *)

Lemma length_trim_start s : List.length (trim_start s) <= List.length s.
Proof.
  induction s as [|c s IH]; simpl; [lia|].
  destruct (is_white_space c); simpl; lia.
Qed.

Lemma trim_start_fixed s : head_space s = false -> trim_start s = s.
Proof. destruct s as [|c s]; simpl; [reflexivity|]. intros ->. reflexivity. Qed.

Lemma trim_start_same_length s :
  List.length (trim_start s) = List.length s -> head_space s = false.
Proof.
  destruct s as [|c s]; simpl; [reflexivity|].
  destruct (is_white_space c); [|reflexivity].
  intros Hlen. pose proof (length_trim_start s). lia.
Qed.

Lemma length_drop_leading c s :
  List.length (drop_leading c s) <= List.length s.
Proof. destruct s as [|d s]; simpl; [lia|]. destruct (N.eqb d c); simpl; lia. Qed.

Lemma drop_leading_fixed s : head_quote s = false -> drop_leading QUOTE s = s.
Proof. destruct s as [|c s]; simpl; [reflexivity|]. intros ->. reflexivity. Qed.

Lemma drop_leading_same_length s :
  List.length (drop_leading QUOTE s) = List.length s -> head_quote s = false.
Proof.
  destruct s as [|c s]; simpl; [reflexivity|].
  destruct (N.eqb c QUOTE); [|reflexivity]. intros Hlen. lia.
Qed.

Lemma length_trim_end s : List.length (trim_end s) <= List.length s.
Proof.
  unfold trim_end. rewrite List.length_rev.
  pose proof (length_trim_start (List.rev s)) as Hle.
  rewrite List.length_rev in Hle. exact Hle.
Qed.

Lemma trim_end_fixed s : head_space (List.rev s) = false -> trim_end s = s.
Proof.
  intros Hs. unfold trim_end. rewrite (trim_start_fixed _ Hs).
  apply List.rev_involutive.
Qed.

Lemma trim_end_same_length s :
  List.length (trim_end s) = List.length s -> head_space (List.rev s) = false.
Proof.
  unfold trim_end. rewrite List.length_rev. intros Hlen.
  apply trim_start_same_length. rewrite List.length_rev. exact Hlen.
Qed.

Lemma length_drop_trailing c s :
  List.length (drop_trailing c s) <= List.length s.
Proof.
  unfold drop_trailing. rewrite List.length_rev.
  pose proof (length_drop_leading c (List.rev s)) as Hle.
  rewrite List.length_rev in Hle. exact Hle.
Qed.

Lemma drop_trailing_fixed s :
  head_quote (List.rev s) = false -> drop_trailing QUOTE s = s.
Proof.
  intros Hs. unfold drop_trailing. rewrite (drop_leading_fixed _ Hs).
  apply List.rev_involutive.
Qed.

Lemma drop_trailing_same_length s :
  List.length (drop_trailing QUOTE s) = List.length s ->
  head_quote (List.rev s) = false.
Proof.
  unfold drop_trailing. rewrite List.length_rev. intros Hlen.
  apply drop_leading_same_length. rewrite List.length_rev. exact Hlen.
Qed.

(** What is left of a string after trimming at the front does not begin
    with white space, and holds only code units of the string. *)
Lemma head_space_trim_start s : head_space (trim_start s) = false.
Proof.
  induction s as [|c s IH]; simpl; [reflexivity|].
  destruct (is_white_space c) eqn:Hc; [exact IH | simpl; exact Hc].
Qed.

Lemma in_trim_start c s : In c (trim_start s) -> In c s.
Proof.
  induction s as [|d s IH]; simpl; [tauto|].
  destruct (is_white_space d); simpl; tauto.
Qed.

Lemma in_trim_end c s : In c (trim_end s) -> In c s.
Proof.
  unfold trim_end. rewrite <- List.in_rev. intros Hin.
  apply List.in_rev. apply in_trim_start. exact Hin.
Qed.

(** Trimming at the front stops at the first code unit that is not white
    space, also when that is the last one. *)
Lemma trim_start_snoc s c :
  is_white_space c = false -> trim_start (s ++ [c]) = trim_start s ++ [c].
Proof.
  intros Hc. induction s as [|d s IH]; simpl.
  - rewrite Hc. reflexivity.
  - destruct (is_white_space d); [exact IH | reflexivity].
Qed.

Lemma head_space_trim_end s :
  head_space s = false -> head_space (trim_end s) = false.
Proof.
  destruct s as [|c s]; [reflexivity|]. simpl. intros Hc.
  unfold trim_end. simpl. rewrite (trim_start_snoc _ _ Hc).
  rewrite List.rev_app_distr. simpl. exact Hc.
Qed.

Lemma head_quote_absent s :
  ~ In QUOTE s -> head_quote s = false.
Proof.
  destruct s as [|c s]; [reflexivity|]. simpl. intros Hno.
  destruct (N.eqb_spec c QUOTE) as [->|_]; [|reflexivity].
  exfalso. apply Hno. now left.
Qed.

(** C5, as the code has it: cleaning a cell is a total function; cleaning
    the cleaned cell again changes nothing exactly when the cleaned cell
    neither begins nor ends with white space or a double quote, which is the
    case of every cell without double quotes.  One pass removes at most one
    quote at each end. *)
Theorem clean_cell_idempotent_iff x :
  (clean_cell (clean_cell x) = clean_cell x <-> bare (clean_cell x) = true) /\
  (~ In QUOTE x -> clean_cell (clean_cell x) = clean_cell x).
Proof.
  assert (Hfixed : forall y, clean_cell y = y <-> bare y = true).
  { intros y. unfold bare, clean_cell, strip_quotes, trim. split.
    - intros Hfix.
      pose proof (length_trim_start y) as H1.
      pose proof (length_trim_end (trim_start y)) as H2.
      pose proof (length_drop_leading QUOTE (trim_end (trim_start y))) as H3.
      pose proof (length_drop_trailing QUOTE
                    (drop_leading QUOTE (trim_end (trim_start y)))) as H4.
      assert (Hlen : List.length
                (drop_trailing QUOTE (drop_leading QUOTE (trim_end (trim_start y))))
              = List.length y) by (rewrite Hfix; reflexivity).
      assert (Ha : head_space y = false)
        by (apply trim_start_same_length; lia).
      rewrite (trim_start_fixed y Ha) in *.
      assert (Hb : head_space (List.rev y) = false)
        by (apply trim_end_same_length; lia).
      rewrite (trim_end_fixed y Hb) in *.
      assert (Hc : head_quote y = false)
        by (apply drop_leading_same_length; lia).
      rewrite (drop_leading_fixed y Hc) in *.
      assert (Hd : head_quote (List.rev y) = false)
        by (apply drop_trailing_same_length; lia).
      rewrite Ha, Hb, Hc, Hd. reflexivity.
    - intros Hbare.
      apply andb_prop in Hbare as [Hbare Hd].
      apply andb_prop in Hbare as [Hbare Hc].
      apply andb_prop in Hbare as [Ha Hb].
      apply negb_true_iff in Ha, Hb, Hc, Hd.
      rewrite (trim_start_fixed y Ha), (trim_end_fixed y Hb),
        (drop_leading_fixed y Hc), (drop_trailing_fixed y Hd).
      reflexivity. }
  split; [apply Hfixed|].
  intros Hno. apply Hfixed.
  assert (Hno_trim : ~ In QUOTE (trim x)).
  { intros Hin. apply Hno. apply in_trim_start. apply in_trim_end. exact Hin. }
  assert (Hno_rev : ~ In QUOTE (List.rev (trim x))).
  { intros Hin. apply Hno_trim. apply List.in_rev. exact Hin. }
  assert (Hclean : clean_cell x = trim x).
  { unfold clean_cell, strip_quotes.
    rewrite (drop_leading_fixed _ (head_quote_absent _ Hno_trim)).
    apply drop_trailing_fixed. apply head_quote_absent. exact Hno_rev. }
  rewrite Hclean. unfold bare.
  rewrite (head_quote_absent _ Hno_trim), (head_quote_absent _ Hno_rev).
  assert (Hfront : head_space (trim x) = false).
  { unfold trim. apply head_space_trim_end. apply head_space_trim_start. }
  assert (Hback : head_space (List.rev (trim x)) = false).
  { unfold trim, trim_end. rewrite List.rev_involutive.
    apply head_space_trim_start. }
  rewrite Hfront, Hback. reflexivity.
Qed.

(** C5 fails as stated: a cell in two pairs of quotes loses one pair at
    each pass. *)
Lemma clean_cell_not_idempotent :
  clean_cell Examples.doubly_quoted = QUOTE :: js "a" ++ [QUOTE] /\
  clean_cell (clean_cell Examples.doubly_quoted) = js "a" /\
  clean_cell (clean_cell Examples.doubly_quoted) <> clean_cell Examples.doubly_quoted.
Proof. vm_compute. repeat split. discriminate. Qed.

(** *** Rows *)

(** Splitting at a one-unit separator gives one piece more than there are
    separators. *)
Lemma length_split_from_single c cur s :
  List.length (split_from [c] O cur s) = S (List.count_occ N.eq_dec s c).
Proof.
  revert cur. induction s as [|d s IH]; intros cur; [reflexivity|].
  simpl. destruct (N.eqb_spec c d) as [->|Hne]; simpl.
  - destruct (N.eq_dec d d) as [_|Hdd]; [|contradiction].
    rewrite IH. reflexivity.
  - destruct (N.eq_dec d c) as [->|_]; [contradiction|]. apply IH.
Qed.



Section Rows.
Import Examples.
Local Open Scope string_scope.


Lemma clean_cell_idempotent_iff_witness :
  clean_cell (clean_cell (js "  J. Smith ")) = clean_cell (js "  J. Smith ").
Proof.
  apply (proj2 (clean_cell_idempotent_iff (js "  J. Smith "))).
  vm_compute. intuition discriminate.
Defined.


End Rows.

End CsvFacts.

(* ===================================================================== *)
(** ** Facts about the endpoint *)
(* ===================================================================== *)

Module SimpleServerFacts.
Import JsString JsValue SimpleServer Sending.

Section Endpoint.
Context `{Platform}.

Lemma parse_csv_empty : parse_csv [] = [].
Proof. reflexivity. Qed.

(** The three ways the handler answers a request whose [csvData] is a
    string with a header and data rows, by the outcome of the oracle call. *)
Lemma handle_text ask body csv :
  csvData body = CsvText csv ->
  2 <= List.length (parse_csv csv) ->
  handle ask body =
    bind (ask (prompt_for body csv)) (fun aiResponseText =>
      let aiResult := parse_reply aiResponseText in
      bind (get aiResult (js "matches")) (fun ms =>
      bind (get aiResult (js "unmatched")) (fun us =>
      bind (overall_confidence aiResult) (fun conf =>
        Ok (Success 200
              {| totalRows := List.length (data_rows csv);
                 headers := header_of csv;
                 matches := or_else ms (VArr []);
                 unmatched := or_else us (VArr []);
                 confidence := conf;
                 ai_raw_response := aiResponseText |}))))).
Proof.
  intros Hcsv Hlen. unfold handle. rewrite Hcsv.
  destruct csv as [|c csv'].
  - rewrite parse_csv_empty in Hlen. simpl in Hlen. lia.
  - destruct (Nat.ltb_spec (List.length (parse_csv (c :: csv'))) 2) as [Hlt|_].
    + lia.
    + reflexivity.
Qed.

(** A request without data rows never reaches the oracle. *)
Lemma handle_short ask body csv :
  csvData body = CsvText csv ->
  List.length (parse_csv csv) < 2 ->
  handle ask body = Ok (Failure 400 CsvDataRequired) \/
  handle ask body = Ok (Failure 400 CsvTooShort).
Proof.
  intros Hcsv Hlen. unfold handle. rewrite Hcsv.
  destruct csv as [|c csv']; [now left|].
  destruct (Nat.ltb_spec (List.length (parse_csv (c :: csv'))) 2) as [_|Hge].
  - now right.
  - lia.
Qed.

(** What a successful response says about the request and the reply. *)
Lemma success_inversion ask body st r :
  process_attendance ask body = Success st r ->
  exists csv ms us,
    csvData body = CsvText csv /\
    2 <= List.length (parse_csv csv) /\
    ask (prompt_for body csv) = Ok (ai_raw_response r) /\
    get (parse_reply (ai_raw_response r)) (js "matches") = Ok ms /\
    get (parse_reply (ai_raw_response r)) (js "unmatched") = Ok us /\
    overall_confidence (parse_reply (ai_raw_response r)) = Ok (confidence r) /\
    st = 200%nat /\
    totalRows r = List.length (data_rows csv) /\
    headers r = header_of csv /\
    matches r = or_else ms (VArr []) /\
    unmatched r = or_else us (VArr []).
Proof.
  unfold process_attendance. intros Hrun.
  destruct (csvData body) as [|csv|] eqn:Hcsv.
  - unfold handle in Hrun. rewrite Hcsv in Hrun. discriminate.
  - destruct (Nat.lt_ge_cases (List.length (parse_csv csv)) 2) as [Hlt|Hge].
    + destruct (handle_short ask body csv Hcsv Hlt) as [E|E];
        rewrite E in Hrun; discriminate.
    + rewrite (handle_text ask body csv Hcsv Hge) in Hrun.
      destruct (ask (prompt_for body csv)) as [text|e] eqn:Hask;
        simpl in Hrun; [|discriminate].
      destruct (get (parse_reply text) (js "matches")) as [ms|e] eqn:Hms;
        simpl in Hrun; [|discriminate].
      destruct (get (parse_reply text) (js "unmatched")) as [us|e] eqn:Hus;
        simpl in Hrun; [|discriminate].
      destruct (overall_confidence (parse_reply text)) as [conf|e] eqn:Hconf;
        simpl in Hrun; [|discriminate].
      injection Hrun as <- <-. simpl.
      exists csv, ms, us. repeat split; auto.
  - unfold handle in Hrun. rewrite Hcsv in Hrun. discriminate.
Qed.

(** A reply that cannot be parsed is replaced by the fallback object. *)
Lemma parse_reply_unparsable text :
  unparsable text -> parse_reply text = fallback.
Proof.
  unfold unparsable, parse_reply. destruct text as [t|]; [|reflexivity].
  destruct (match_braces t) as [j|]; [|reflexivity].
  intros ->. reflexivity.
Qed.

Lemma overall_confidence_fallback :
  overall_confidence fallback = Ok PrimFloat.nan.
Proof. reflexivity. Qed.

(** C1, as the code has it: for a request with a header and data rows, an
    oracle call that throws (oracle unreachable, timed out) ends the request
    with status 500 and the error's message, while a reply that cannot be
    parsed is soft: the request succeeds with empty [matches] and
    [unmatched]. *)
Theorem oracle_failure_outcomes ask body csv :
  csvData body = CsvText csv ->
  2 <= List.length (parse_csv csv) ->
  (forall e, ask (prompt_for body csv) = Throw e ->
     process_attendance ask body = Failure 500 (Thrown e)) /\
  (forall text, ask (prompt_for body csv) = Ok text -> unparsable text ->
     process_attendance ask body =
       Success 200
         {| totalRows := List.length (data_rows csv);
            headers := header_of csv;
            matches := VArr [];
            unmatched := VArr [];
            confidence := PrimFloat.nan;
            ai_raw_response := text |}).
Proof.
  intros Hcsv Hlen. unfold process_attendance.
  rewrite (handle_text ask body csv Hcsv Hlen). split.
  - intros e ->. reflexivity.
  - intros text -> Hbad. simpl.
    rewrite (parse_reply_unparsable text Hbad). reflexivity.
Qed.


Lemma reduce_numeric items cs acc :
  Forall2 (fun m c => get m (js "confidence") = Ok (VNum c)) items cs ->
  reduce add_confidence items (VNum acc) =
    Ok (VNum (List.fold_left PrimFloat.add cs acc)).
Proof.
  intros Hall. revert acc.
  induction Hall as [|m c items cs Hm _ IH]; intros acc; [reflexivity|].
  simpl. unfold add_confidence at 1. rewrite Hm. simpl. apply IH.
Qed.

(** With a header and data rows and an answer of the oracle, the request
    succeeds exactly when the three reads of the parsed reply do. *)
Lemma answered ask body csv text ms us conf :
  csvData body = CsvText csv ->
  2 <= List.length (parse_csv csv) ->
  ask (prompt_for body csv) = Ok text ->
  get (parse_reply text) (js "matches") = Ok ms ->
  get (parse_reply text) (js "unmatched") = Ok us ->
  overall_confidence (parse_reply text) = Ok conf ->
  handle ask body =
    Ok (Success 200
          {| totalRows := List.length (data_rows csv);
             headers := header_of csv;
             matches := or_else ms (VArr []);
             unmatched := or_else us (VArr []);
             confidence := conf;
             ai_raw_response := text |}).
Proof.
  intros Hcsv Hlen Hask Hms Hus Hconf.
  rewrite (handle_text ask body csv Hcsv Hlen), Hask. simpl.
  rewrite Hms. simpl. rewrite Hus. simpl. rewrite Hconf. reflexivity.
Qed.

(** A successful response carries what the oracle answered to the prompt of
    the request. *)
Lemma success_answer ask body csv text st r :
  csvData body = CsvText csv ->
  ask (prompt_for body csv) = Ok text ->
  process_attendance ask body = Success st r ->
  ai_raw_response r = text /\
  exists ms,
    get (parse_reply text) (js "matches") = Ok ms /\
    overall_confidence (parse_reply text) = Ok (confidence r) /\
    matches r = or_else ms (VArr []).
Proof.
  intros Hcsv Hask Hrun.
  destruct (success_inversion _ _ _ _ Hrun)
    as (csv' & ms & us & Hcsv' & _ & Hask' & Hms & _ & Hconf & _ & _ & _ & Hm & _).
  rewrite Hcsv in Hcsv'. injection Hcsv' as <-.
  rewrite Hask in Hask'. injection Hask' as ->.
  split; [reflexivity|]. exists ms. repeat split; assumption.
Qed.

Lemma get_after v k k' x : get v k = Ok x -> exists y, get v k' = Ok y.
Proof. destruct v; simpl; intros Hget; try discriminate; eauto. Qed.

(** C3, as the code has it: the handler looks nothing up in the directory.
    For a request with data rows, the matches of a successful response are
    the [matches] of what the oracle answered to the prompt, as they stand,
    and the response carries that answer; when the answer cannot be parsed
    the request succeeds without any match. *)
Theorem matches_come_from_the_oracle ask body csv text :
  csvData body = CsvText csv ->
  2 <= List.length (parse_csv csv) ->
  ask (prompt_for body csv) = Ok text ->
  (forall st r, process_attendance ask body = Success st r ->
     ai_raw_response r = text /\
     exists ms,
       get (parse_reply text) (js "matches") = Ok ms /\
       matches r = or_else ms (VArr [])) /\
  (unparsable text ->
   exists r,
     process_attendance ask body = Success 200 r /\
     ai_raw_response r = text /\ matches r = VArr []).
Proof.
  intros Hcsv Hlen Hask. split.
  - intros st r Hrun.
    destruct (success_answer _ _ _ _ _ _ Hcsv Hask Hrun)
      as (Hraw & ms & Hms & _ & Hm).
    split; [exact Hraw|]. exists ms. split; assumption.
  - intros Hbad. unfold process_attendance.
    rewrite (handle_text ask body csv Hcsv Hlen), Hask. simpl.
    rewrite (parse_reply_unparsable text Hbad). simpl.
    eexists. split; [reflexivity|]. split; reflexivity.
Qed.

(** Changing the options of a request does not change what the handler
    computes. *)
Lemma handle_with_options ask body o :
  handle ask (with_options o body) = handle ask body.
Proof. reflexivity. Qed.

(** C4, as the code has it: the [options] of the request are not read, so
    every request is answered the same under any options; and every record
    of the [matches] array that the oracle answered is reported, whatever
    its confidence: all of them when the request succeeds, and it succeeds
    whenever the confidences are numbers, whichever numbers. *)
Theorem matches_are_not_filtered ask body o :
  process_attendance ask (with_options o body) = process_attendance ask body /\
  (forall csv text items,
     csvData body = CsvText csv ->
     2 <= List.length (parse_csv csv) ->
     ask (prompt_for body csv) = Ok text ->
     get (parse_reply text) (js "matches") = Ok (VArr items) ->
     (forall st r, process_attendance ask body = Success st r ->
        ai_raw_response r = text /\ matches r = VArr items) /\
     (forall cs,
        Forall2 (fun m c => get m (js "confidence") = Ok (VNum c)) items cs ->
        exists r,
          process_attendance ask body = Success 200 r /\
          ai_raw_response r = text /\ matches r = VArr items)).
Proof.
  split.
  - unfold process_attendance. rewrite handle_with_options. reflexivity.
  - intros csv text items Hcsv Hlen Hask Hitems. split.
    + intros st r Hrun.
      destruct (success_answer _ _ _ _ _ _ Hcsv Hask Hrun)
        as (Hraw & ms & Hms & _ & Hm).
      rewrite Hitems in Hms. injection Hms as <-.
      split; [exact Hraw | exact Hm].
    + intros cs Hall.
      destruct (get_after _ _ (js "unmatched") _ Hitems) as [us Hus].
      assert (Hconf : overall_confidence (parse_reply text) =
                Ok (PrimFloat.div (running_sum cs) (length_number items))).
      { unfold overall_confidence. rewrite Hitems. simpl.
        rewrite (reduce_numeric items cs _ Hall). reflexivity. }
      unfold process_attendance.
      rewrite (answered _ _ _ _ _ _ _ Hcsv Hlen Hask Hitems Hus Hconf).
      eexists. split; [reflexivity|]. split; reflexivity.
Qed.





(** C7: a file without data rows (a header alone, or nothing that survives
    the tokenizer) is refused with status 400; the oracle is not consulted
    and no result is produced. *)
Theorem no_data_rows_is_refused ask body csv :
  csvData body = CsvText csv ->
  data_rows csv = [] ->
  process_attendance ask body = Failure 400 CsvDataRequired \/
  process_attendance ask body = Failure 400 CsvTooShort.
Proof.
  intros Hcsv Hrows. unfold process_attendance.
  assert (Hlen : List.length (parse_csv csv) < 2).
  { unfold data_rows in Hrows.
    destruct (parse_csv csv) as [|h [|d rest]]; simpl; [lia | lia | discriminate]. }
  destruct (handle_short ask body csv Hcsv Hlen) as [-> | ->]; [now left | now right].
Qed.

(** C10, as the code has it: when the oracle's answer parses to an array
    of matches with numeric confidences, the request succeeds and its
    overall confidence is their sum, in the order of the array, divided by
    their number; for the empty array this is [0 / 0], NaN and not 0, and
    what the endpoint writes for it in the response is [null]. *)
Theorem overall_confidence_is_mean_or_nan now ask body csv text items cs :
  csvData body = CsvText csv ->
  2 <= List.length (parse_csv csv) ->
  ask (prompt_for body csv) = Ok text ->
  get (parse_reply text) (js "matches") = Ok (VArr items) ->
  Forall2 (fun m c => get m (js "confidence") = Ok (VNum c)) items cs ->
  exists r,
    respond now ask body =
      SentResult 200 r (stringify_number (confidence r))
        (now 0%nat - now 1%nat)%Z (now 2%nat) /\
    ai_raw_response r = text /\
    matches r = VArr items /\
    confidence r = PrimFloat.div (running_sum cs) (length_number items) /\
    (items = [] ->
     PrimFloat.is_nan (confidence r) = true /\
     stringify_number (confidence r) = JsonNull).
Proof.
  intros Hcsv Hlen Hask Hitems Hall.
  destruct (get_after _ _ (js "unmatched") _ Hitems) as [us Hus].
  assert (Hconf : overall_confidence (parse_reply text) =
            Ok (PrimFloat.div (running_sum cs) (length_number items))).
  { unfold overall_confidence. rewrite Hitems. simpl.
    rewrite (reduce_numeric items cs _ Hall). reflexivity. }
  unfold respond.
  rewrite (answered _ _ _ _ _ _ _ Hcsv Hlen Hask Hitems Hus Hconf).
  eexists. split; [reflexivity|]. simpl.
  split; [reflexivity|]. split; [reflexivity|]. split; [reflexivity|].
  intros ->. inversion Hall; subst. split; reflexivity.
Qed.

End Endpoint.

Section Runs.
Import Examples.
Local Open Scope string_scope.

Example run_timing_out :
  run timing_out (upload_of roster_csv) =
    Failure 500 (Thrown (OracleError (js "Request timed out."))).
Proof. reflexivity. Qed.

Example run_prose :
  run (answering prose_reply) (upload_of roster_csv) =
    Success 200 (empty_result 1 [js "Name"; js "Email"] prose_reply).
Proof. reflexivity. Qed.

Example run_low :
  run (answering low_reply) (upload_of roster_csv) =
    Success 200 (low_result 1 [js "Name"; js "Email"]).
Proof. reflexivity. Qed.


Example run_eleven :
  run (answering low_reply) (upload_of eleven_rows_csv) =
    Success 200 (low_result 11 [js "Name"]).
Proof. reflexivity. Qed.

Example run_twelve :
  run (answering low_reply) (upload_of twelve_rows_csv) =
    Success 200 (low_result 12 [js "Name"]).
Proof. reflexivity. Qed.

(** C1 fails as stated: with the oracle timing out, the request for a
    well-formed file ends with status 500, not with a result. *)
Lemma oracle_timeout_fails_the_request :
  exists msg, run timing_out (upload_of roster_csv) = Failure 500 msg.
Proof. eexists. exact run_timing_out. Qed.

Lemma oracle_failure_outcomes_witness :
  run timing_out (upload_of roster_csv) =
    Failure 500 (Thrown (OracleError (js "Request timed out."))) /\
  run (answering prose_reply) (upload_of roster_csv) =
    Success 200 (empty_result 1 [js "Name"; js "Email"] prose_reply).
Proof.
  destruct (@oracle_failure_outcomes example_platform timing_out
              (upload_of roster_csv) roster_csv eq_refl (le_n 2))
    as [Hthrow _].
  destruct (@oracle_failure_outcomes example_platform (answering prose_reply)
              (upload_of roster_csv) roster_csv eq_refl (le_n 2))
    as [_ Hsoft].
  split.
  - apply Hthrow. reflexivity.
  - apply (Hsoft (Some prose_reply)); [reflexivity | exact I].
Defined.



(** C3 fails as stated: the data row carries the email of a directory
    entry, the request succeeds, and the row is not matched. *)
Lemma exact_email_not_matched :
  exists r row s,
    run (answering prose_reply) (upload_of roster_csv) = Success 200 r /\
    In row (data_rows roster_csv) /\
    In s (directory (upload_of roster_csv)) /\
    In (student_email s) row /\
    matches r = VArr [].
Proof.
  exists (empty_result 1 [js "Name"; js "Email"] prose_reply),
    [js "J. Smith"; js "john.smith@university.edu"],
    (mkStudent 1 "John Smith" "john.smith@university.edu").
  split; [exact run_prose|].
  split; [vm_compute; left; reflexivity|].
  split; [vm_compute; left; reflexivity|].
  split; [vm_compute; right; left; reflexivity|reflexivity].
Qed.

Lemma matches_come_from_the_oracle_witness :
  exists r,
    run (answering prose_reply) (upload_of roster_csv) = Success 200 r /\
    ai_raw_response r = Some prose_reply /\ matches r = VArr [].
Proof.
  apply (proj2 (@matches_come_from_the_oracle example_platform
                  (answering prose_reply) (upload_of roster_csv) roster_csv
                  (Some prose_reply) eq_refl (le_n 2) eq_refl)).
  exact I.
Defined.

(** C4 fails as stated: the client asks for the threshold 0.7 and a match
    of confidence 0.25 is reported among the matches. *)
Lemma low_confidence_match_reported :
  exists r c,
    options (upload_of roster_csv) =
      VObj [ (js "confidence_threshold", VNum 0.7%float) ] /\
    run (answering low_reply) (upload_of roster_csv) = Success 200 r /\
    matches r = VArr [low_match] /\
    get low_match (js "confidence") = Ok (VNum c) /\
    PrimFloat.ltb c 0.7%float = true.
Proof.
  exists (low_result 1 [js "Name"; js "Email"]), 0.25%float.
  split; [reflexivity|]. split; [exact run_low|]. repeat split.
Qed.

Lemma matches_are_not_filtered_witness :
  run (answering low_reply)
      (with_options (VObj [ (js "confidence_threshold", VNum 0.9%float) ])
         (upload_of roster_csv)) =
    run (answering low_reply) (upload_of roster_csv) /\
  exists r,
    run (answering low_reply) (upload_of roster_csv) = Success 200 r /\
    ai_raw_response r = Some low_reply /\ matches r = VArr [low_match].
Proof.
  destruct (@matches_are_not_filtered example_platform (answering low_reply)
              (upload_of roster_csv)
              (VObj [ (js "confidence_threshold", VNum 0.9%float) ]))
    as [Hoptions Hreported].
  split; [exact Hoptions|].
  apply (proj2 (Hreported roster_csv (Some low_reply) [low_match]
                  eq_refl (le_n 2) eq_refl eq_refl) [0.25%float]).
  repeat constructor.
Defined.



Lemma no_data_rows_is_refused_witness :
  run (answering exact_reply) (upload_of header_only_csv) =
    Failure 400 CsvDataRequired \/
  run (answering exact_reply) (upload_of header_only_csv) =
    Failure 400 CsvTooShort.
Proof.
  apply (@no_data_rows_is_refused example_platform (answering exact_reply)
           (upload_of header_only_csv) header_only_csv);
    reflexivity.
Defined.

(** C10 fails as stated: the oracle's answer parses to an empty array of
    matches, the confidence computed is NaN, and what the endpoint reports
    for it is [null]. *)
Lemma empty_matches_written_as_null :
  exists r p t,
    @respond empty_platform (ticking 0) (answering empty_reply)
      (upload_of roster_csv) = SentResult 200 r JsonNull p t /\
    matches r = VArr [] /\
    PrimFloat.is_nan (confidence r) = true.
Proof.
  exists (empty_result 1 [js "Name"; js "Email"] empty_reply), (-1)%Z, 2%Z.
  vm_compute. repeat split.
Qed.

Lemma overall_confidence_is_mean_or_nan_witness :
  exists r,
    send (ticking 0) (answering low_reply) (upload_of roster_csv) =
      SentResult 200 r (stringify_number (confidence r))
        (ticking 0 0%nat - ticking 0 1%nat)%Z (ticking 0 2%nat) /\
    ai_raw_response r = Some low_reply /\
    matches r = VArr [low_match] /\
    confidence r =
      PrimFloat.div (running_sum [0.25%float]) (length_number [low_match]) /\
    ([low_match] = [] ->
     PrimFloat.is_nan (confidence r) = true /\
     stringify_number (confidence r) = JsonNull).
Proof.
  apply (@overall_confidence_is_mean_or_nan example_platform (ticking 0)
           (answering low_reply) (upload_of roster_csv) roster_csv
           (Some low_reply) [low_match] [0.25%float]
           eq_refl (le_n 2) eq_refl eq_refl).
  repeat constructor.
Defined.

End Runs.

End SimpleServerFacts.

(* ===================================================================== *)
(** ** Facts about the upload controller *)
(* ===================================================================== *)

Module ControllerFacts.
Import Controller.

(** A call that passes an [await] was not at its end, and it never goes back
    to its start. *)
Lemma processFileAsync_step_positions id db p db' p' :
  processFileAsync_step id (db, p) (db', p') -> pending_write p /\ p' <> AtClaim.
Proof.
  intros Hstep.
  inversion Hstep; subst; split; unfold pending_write; discriminate.
Qed.

(** A call writes nothing, or it rewrites its own row. *)
Lemma processFileAsync_step_writes id db p db' p' :
  processFileAsync_step id (db, p) (db', p') ->
  db' = db \/
  exists f g, db !! id = Some f /\ db' = <[id := g]> db /\
    (pending_write p' -> processingStatus g <> COMPLETED).
Proof.
  intros Hstep. inversion Hstep; subst; try (now left); right.
  - exists f, (claimed f).
    split; [assumption|]. split; [reflexivity|]. intros _. discriminate.
  - exists f, (completed result f).
    split; [assumption|]. split; [reflexivity|]. intros Hp. now contradiction Hp.
  - exists f, (failed message f).
    split; [assumption|]. split; [reflexivity|]. intros Hp. now contradiction Hp.
Qed.

Lemma initial_consistent : consistent initial.
Proof. intros id p Hp. simpl in Hp. rewrite lookup_empty in Hp. discriminate. Qed.

Lemma step_consistent s s' : consistent s -> step s s' -> consistent s'.
Proof.
  intros Hinv Hstep. destruct Hstep as [s id name Hfresh | s id p db' p' Hrun Hcall | s];
    [| | exact Hinv]; intros id0 p0; simpl.
  - destruct (decide (id = id0)) as [->|Hne].
    + rewrite !lookup_insert_eq. intros [= <-].
      exists (pending name). split; [reflexivity | discriminate].
    + rewrite !lookup_insert_ne by assumption. apply Hinv.
  - destruct (processFileAsync_step_positions _ _ _ _ _ Hcall) as [Hp _].
    destruct (Hinv id p Hrun) as (f & Hf & Hopen). specialize (Hopen Hp).
    destruct (processFileAsync_step_writes _ _ _ _ _ Hcall)
      as [-> | (f1 & g & Hf1 & -> & Hg)].
    + destruct (decide (id = id0)) as [->|Hne].
      * rewrite lookup_insert_eq. intros [= <-]. exists f. split; auto.
      * rewrite lookup_insert_ne by assumption. apply Hinv.
    + destruct (decide (id = id0)) as [->|Hne].
      * rewrite !lookup_insert_eq. intros [= <-]. exists g. split; auto.
      * rewrite !lookup_insert_ne by assumption. apply Hinv.
Qed.

Lemma steps_consistent s s' : consistent s -> steps s s' -> consistent s'.
Proof.
  intros Hinv Hsteps. induction Hsteps as [|s1 s2 s3 Hstep _ IH]; [assumption|].
  apply IH. eapply step_consistent; eassumption.
Qed.

(** One step leaves every COMPLETED row as it is. *)
Lemma step_keeps_completed s s' id f :
  consistent s -> step s s' ->
  file_uploads s !! id = Some f -> processingStatus f = COMPLETED ->
  file_uploads s' !! id = Some f.
Proof.
  intros Hinv Hstep Hf Hdone.
  destruct Hstep as [s id1 name Hfresh | s id1 p db' p' Hrun Hcall | s];
    simpl; [| | exact Hf].
  - rewrite lookup_insert_ne; [exact Hf|]. intros ->. congruence.
  - destruct (processFileAsync_step_positions _ _ _ _ _ Hcall) as [Hp _].
    destruct (Hinv id1 p Hrun) as (f1 & Hf1 & Hopen). specialize (Hopen Hp).
    destruct (processFileAsync_step_writes _ _ _ _ _ Hcall)
      as [-> | (f2 & g & _ & -> & _)]; [exact Hf|].
    rewrite lookup_insert_ne; [exact Hf|]. intros ->. congruence.
Qed.

(** A call of [processFileAsync] starts only in [uploadFile], for the row
    that [uploadFile] has just created under an unused id. *)
Lemma step_starts_fresh s s' id :
  consistent s -> step s s' ->
  running s' !! id = Some AtClaim -> running s !! id <> Some AtClaim ->
  file_uploads s !! id = None /\
  exists name, file_uploads s' !! id = Some (pending name).
Proof.
  intros Hinv Hstep Hnew Hold.
  destruct Hstep as [s id1 name Hfresh | s id1 p db' p' Hrun Hcall | s];
    simpl in *; [| | contradiction].
  - destruct (decide (id1 = id)) as [->|Hne].
    + split; [assumption|]. exists name. apply lookup_insert_eq.
    + rewrite lookup_insert_ne in Hnew by assumption. contradiction.
  - destruct (processFileAsync_step_positions _ _ _ _ _ Hcall) as [_ Hp'].
    destruct (decide (id1 = id)) as [->|Hne].
    + rewrite lookup_insert_eq in Hnew. congruence.
    + rewrite lookup_insert_ne in Hnew by assumption. contradiction.
Qed.

(** From the [catch] block a call can only end: it writes FAILED with the
    error's message into its own row, or writes nothing. *)
Lemma catch_block_ends id db message db' p' :
  processFileAsync_step id (db, AtFail message) (db', p') ->
  p' = Returned /\
  (db' = db \/
   exists f, db !! id = Some f /\ db' = <[id := failed message f]> db).
Proof.
  intros Hstep. inversion Hstep; subst; split; try reflexivity.
  - right. exists f. split; [assumption | reflexivity].
  - now left.
Qed.

(** C9: in every state the server can reach, a COMPLETED job stays exactly
    as it is through any further steps, and whenever processing is started,
    it is for a job created by that very step under an id that was not in
    the table: a file uploaded again gets a new job, and the completed one is
    not written to. *)
Theorem completed_is_terminal s s' :
  steps initial s -> steps s s' ->
  (forall id f,
     file_uploads s !! id = Some f -> processingStatus f = COMPLETED ->
     file_uploads s' !! id = Some f) /\
  (forall s'' id,
     step s' s'' ->
     running s'' !! id = Some AtClaim -> running s' !! id <> Some AtClaim ->
     file_uploads s' !! id = None /\
     exists name, file_uploads s'' !! id = Some (pending name)).
Proof.
  intros Hreach Hsteps.
  assert (Hinv : consistent s).
  { eapply steps_consistent; [apply initial_consistent | eassumption]. }
  split.
  - clear Hreach. induction Hsteps as [|s1 s2 s3 Hstep _ IH]; intros id f Hf Hdone;
      [assumption|].
    apply IH.
    + eapply step_consistent; eassumption.
    + eapply step_keeps_completed; eassumption.
    + assumption.
  - intros s'' id Hstep. apply step_starts_fresh; [|assumption].
    eapply steps_consistent; eassumption.
Qed.

Section Runs.
Import ControllerExamples.
Local Open Scope string_scope.

(** The step of a call from one of the states above to the next. *)
Ltac call_passes s id p :=
  eapply steps_cons;
  [ unfold advance; apply (step_processFileAsync s id p); [reflexivity|] | ].

Lemma first_job_completes : steps initial first_completed.
Proof.
  eapply steps_cons; [apply (step_uploadFile initial "job-1" "roster.csv"); reflexivity|].
  call_passes first_uploaded "job-1" AtClaim.
  { apply (claim_resolves "job-1" (file_uploads first_uploaded)
             (pending "roster.csv")). reflexivity. }
  call_passes first_claimed "job-1" AtRead; [apply read_resolves|].
  call_passes first_read "job-1" (AtMatch "Name,Email"); [apply match_resolves|].
  call_passes first_matched "job-1" (AtSave one_match); [apply save_resolves|].
  call_passes first_saved "job-1" (AtComplete one_match).
  { apply (complete_resolves "job-1" (file_uploads first_saved)
             (claimed (pending "roster.csv"))). reflexivity. }
  apply steps_refl.
Qed.

Lemma second_job_fails : steps first_completed second_failed.
Proof.
  eapply steps_cons;
    [apply (step_uploadFile first_completed "job-2" "roster.csv"); reflexivity|].
  call_passes second_uploaded "job-2" AtClaim.
  { apply (claim_resolves "job-2" (file_uploads second_uploaded)
             (pending "roster.csv")). reflexivity. }
  call_passes second_claimed "job-2" AtRead; [apply read_throws|].
  call_passes second_thrown "job-2" (AtFail "ENOENT").
  { apply (fail_resolves "job-2" (file_uploads second_thrown)
             (claimed (pending "roster.csv"))). reflexivity. }
  apply steps_refl.
Qed.

Lemma completed_is_terminal_witness :
  file_uploads first_completed !! "job-1" = Some first_row /\
  file_uploads second_failed !! "job-1" = Some first_row /\
  file_uploads first_completed !! "job-2" = None.
Proof.
  destruct (completed_is_terminal first_completed second_failed
              first_job_completes second_job_fails) as [Hkeep _].
  destruct (completed_is_terminal first_completed first_completed
              first_job_completes (steps_refl _)) as [_ Hnew].
  split; [reflexivity|]. split.
  - apply Hkeep; reflexivity.
  - apply (Hnew second_uploaded "job-2").
    + apply (step_uploadFile first_completed "job-2" "roster.csv"). reflexivity.
    + reflexivity.
    + discriminate.
Defined.

End Runs.

End ControllerFacts.

(* ===================================================================== *)
(** ** More about cells, lines and the brace pattern *)
(* ===================================================================== *)

Module TextFacts.
Import JsString JsValue SimpleServer CsvReader.

Lemma forallb_rev {A : Type} (f : A -> bool) (l : list A) :
  List.forallb f l = true -> List.forallb f (List.rev l) = true.
Proof.
  rewrite !List.forallb_forall. intros Hall x Hx.
  apply Hall. apply List.in_rev. exact Hx.
Qed.

Lemma trim_start_split s :
  exists w, s = w ++ trim_start s /\ List.forallb is_white_space w = true.
Proof.
  induction s as [|c s (w & Hs & Hw)]; [exists []; split; reflexivity|].
  simpl. destruct (is_white_space c) eqn:Hc.
  - exists (c :: w). simpl. rewrite Hc, Hw. split; [f_equal; exact Hs | reflexivity].
  - exists []. split; reflexivity.
Qed.

Lemma trim_end_split s :
  exists w, s = trim_end s ++ w /\ List.forallb is_white_space w = true.
Proof.
  destruct (trim_start_split (List.rev s)) as (w & Hs & Hw).
  exists (List.rev w). split; [|apply forallb_rev; exact Hw].
  unfold trim_end. rewrite <- List.rev_app_distr, <- Hs.
  symmetry. apply List.rev_involutive.
Qed.

Lemma drop_leading_split c s :
  exists q, s = q ++ drop_leading c s /\ (q = [] \/ q = [c]).
Proof.
  destruct s as [|d s]; [exists []; split; [reflexivity | now left]|].
  simpl. destruct (N.eqb_spec d c) as [->|_].
  - exists [c]. split; [reflexivity | now right].
  - exists []. split; [reflexivity | now left].
Qed.

Lemma drop_trailing_split c s :
  exists q, s = drop_trailing c s ++ q /\ (q = [] \/ q = [c]).
Proof.
  destruct (drop_leading_split c (List.rev s)) as (q & Hs & Hq).
  exists q. split; [|exact Hq].
  unfold drop_trailing.
  assert (Hrev : List.rev q = q) by (destruct Hq as [-> | ->]; reflexivity).
  rewrite <- Hrev at 1. rewrite <- List.rev_app_distr, <- Hs.
  symmetry. apply List.rev_involutive.
Qed.

(** X1: cleaning a cell only removes from its two ends: white space, and inside
    of it at most one double quote at each end.  What lies between is kept
    as it is, inner quotes and inner white space included. *)
Theorem clean_cell_removes_only_the_ends cell :
  exists w1 q1 q2 w2,
    cell = w1 ++ q1 ++ clean_cell cell ++ q2 ++ w2 /\
    List.forallb is_white_space w1 = true /\
    List.forallb is_white_space w2 = true /\
    (q1 = [] \/ q1 = [QUOTE]) /\ (q2 = [] \/ q2 = [QUOTE]).
Proof.
  destruct (trim_start_split cell) as (w1 & H1 & Hw1).
  destruct (trim_end_split (trim_start cell)) as (w2 & H2 & Hw2).
  destruct (drop_leading_split QUOTE (trim cell)) as (q1 & H3 & Hq1).
  destruct (drop_trailing_split QUOTE (drop_leading QUOTE (trim cell)))
    as (q2 & H4 & Hq2).
  exists w1, q1, q2, w2. repeat split; try assumption.
  unfold clean_cell, strip_quotes.
  rewrite H1 at 1. rewrite H2 at 1. fold (trim cell).
  rewrite H3 at 1. rewrite H4 at 1.
  rewrite <- !List.app_assoc. reflexivity.
Qed.

(** *** The brace pattern *)

Lemma from_first_some c s t :
  from_first c s = Some t ->
  exists pre t', s = pre ++ t /\ t = c :: t' /\ ~ In c pre.
Proof.
  revert t. induction s as [|d s IH]; intros t; simpl; [discriminate|].
  destruct (N.eqb_spec d c) as [->|Hne].
  - intros [= <-]. exists [], s. repeat split. intros [].
  - intros Ht. destruct (IH t Ht) as (pre & t' & -> & -> & Hpre).
    exists (d :: pre), t'. repeat split.
    intros [Hd | Hin]; [contradiction | exact (Hpre Hin)].
Qed.

Lemma from_first_none c s : from_first c s = None <-> ~ In c s.
Proof.
  induction s as [|d s IH]; simpl; [tauto|].
  destruct (N.eqb_spec d c) as [->|Hne].
  - split; [discriminate | intros Hno; exfalso; apply Hno; now left].
  - rewrite IH. split; [intros Hno [Hd | Hin]; [contradiction | exact (Hno Hin)]|].
    intros Hno Hin. apply Hno. now right.
Qed.

(** What follows the first [c] is found again in the suffix from it. *)
Lemma from_first_covers c pre rest t x :
  from_first c (pre ++ c :: rest) = Some t -> In x rest -> In x t.
Proof.
  revert t. induction pre as [|d pre IH]; intros t; simpl.
  - rewrite N.eqb_refl. intros [= <-] Hx. now right.
  - destruct (N.eqb_spec d c) as [->|_].
    + intros [= <-] Hx. right. apply List.in_or_app. right. now right.
    + apply IH.
Qed.

(** X2: the span the brace pattern extracts from a reply runs from the first
    opening brace of the text to its last closing brace, whatever stands
    before, between and after; there is no span exactly when no closing
    brace follows an opening one. *)
Theorem match_braces_span s :
  (forall m, match_braces s = Some m ->
     exists pre mid post,
       s = pre ++ m ++ post /\ m = LBRACE :: mid ++ [RBRACE] /\
       ~ In LBRACE pre /\ ~ In RBRACE post) /\
  (match_braces s = None <->
     forall pre mid post, s <> pre ++ LBRACE :: mid ++ RBRACE :: post).
Proof.
  assert (Hspan : forall m, match_braces s = Some m ->
     exists pre mid post,
       s = pre ++ m ++ post /\ m = LBRACE :: mid ++ [RBRACE] /\
       ~ In LBRACE pre /\ ~ In RBRACE post).
  { intros m. unfold match_braces.
    destruct (from_first LBRACE s) as [t|] eqn:Ht; [|discriminate].
    destruct (from_first RBRACE (List.rev t)) as [u|] eqn:Hu; [|discriminate].
    intros [= <-].
    destruct (from_first_some _ _ _ Ht) as (pre & t' & Hs & Ht' & Hpre).
    destruct (from_first_some _ _ _ Hu) as (back & u' & Hrev & Hu' & Hback).
    assert (Hsplit : t = List.rev u ++ List.rev back).
    { rewrite <- List.rev_app_distr, <- Hrev. symmetry. apply List.rev_involutive. }
    assert (Hend : List.rev u = List.rev u' ++ [RBRACE]) by (rewrite Hu'; reflexivity).
    destruct (List.rev u') as [|b mid] eqn:Hmid.
    - rewrite Hsplit, Hend in Ht'. simpl in Ht'. discriminate.
    - exists pre, mid, (List.rev back).
      rewrite Hsplit, Hend in Ht'. simpl in Ht'. injection Ht' as Hb _.
      rewrite Hend, Hb. repeat split.
      + rewrite Hs, Hsplit, Hend, Hb. reflexivity.
      + exact Hpre.
      + intros Hin. apply Hback. apply List.in_rev. exact Hin. }
  split; [exact Hspan|]. split.
  - unfold match_braces. intros Hnone pre mid post ->.
    destruct (from_first LBRACE (pre ++ LBRACE :: mid ++ RBRACE :: post))
      as [t|] eqn:Ht.
    + assert (Hin : In RBRACE t).
      { eapply from_first_covers; [exact Ht|].
        apply List.in_or_app. right. now left. }
      destruct (from_first RBRACE (List.rev t)) as [u|] eqn:Hu; [discriminate|].
      apply from_first_none in Hu. apply Hu. apply -> List.in_rev. exact Hin.
    + apply from_first_none in Ht. apply Ht.
      apply List.in_or_app. right. now left.
  - intros Hno. destruct (match_braces s) as [m|] eqn:Hm; [|reflexivity].
    destruct (Hspan m eq_refl) as (pre & mid & post & -> & -> & _).
    exfalso. apply (Hno pre mid post).
    simpl. rewrite <- List.app_assoc. reflexivity.
Qed.

(** *** Lines written by [readCsvFile], read back at the commas *)

Lemma split_from_plain c cur p :
  ~ In c p -> split_from [c] O cur p = [List.rev cur ++ p].
Proof.
  revert cur. induction p as [|a p IH]; intros cur Hno; simpl.
  - rewrite List.app_nil_r. reflexivity.
  - destruct (N.eqb_spec c a) as [->|_]; [exfalso; apply Hno; now left|].
    simpl. rewrite IH by (intros Hin; apply Hno; now right).
    simpl. rewrite <- List.app_assoc. reflexivity.
Qed.

Lemma split_from_field c cur p rest :
  ~ In c p ->
  split_from [c] O cur (p ++ c :: rest) =
    (List.rev cur ++ p) :: split_from [c] O [] rest.
Proof.
  revert cur. induction p as [|a p IH]; intros cur Hno; simpl.
  - rewrite N.eqb_refl, List.app_nil_r. reflexivity.
  - destruct (N.eqb_spec c a) as [->|_]; [exfalso; apply Hno; now left|].
    simpl. rewrite IH by (intros Hin; apply Hno; now right).
    simpl. rewrite <- List.app_assoc. reflexivity.
Qed.

Lemma split_join c p parts :
  Forall (fun x => ~ In c x) (p :: parts) ->
  split [c] (join [c] (p :: parts)) = p :: parts.
Proof.
  unfold split. revert p. induction parts as [|q parts IH]; intros p Hall.
  - simpl. apply split_from_plain. now inversion Hall.
  - change (join [c] (p :: q :: parts)) with (p ++ c :: join [c] (q :: parts)).
    inversion Hall as [|? ? Hp Hrest]; subst.
    rewrite (split_from_field c [] p _ Hp). simpl. f_equal. apply IH. exact Hrest.
Qed.

(** The commas of a joined line: one between two values, and those inside
    the values. *)
Lemma commas_join v vs :
  commas (join [COMMA] (v :: vs)) = (List.length vs + commas_inside (v :: vs))%nat.
Proof.
  revert v. induction vs as [|w vs IH]; intros v.
  - simpl. lia.
  - change (join [COMMA] (v :: w :: vs)) with (v ++ COMMA :: join [COMMA] (w :: vs)).
    assert (Happ : commas (v ++ COMMA :: join [COMMA] (w :: vs)) =
                   (commas v + S (commas (join [COMMA] (w :: vs))))%nat).
    { unfold commas. rewrite List.count_occ_app. simpl.
      destruct (N.eq_dec COMMA COMMA) as [_|Hne]; [reflexivity | contradiction]. }
    rewrite Happ, IH. simpl. lia.
Qed.

End TextFacts.

(* ===================================================================== *)
(** ** Facts about [readCsvFile] *)
(* ===================================================================== *)

Module CsvReaderFacts.
Import JsString SimpleServer CsvReader.

(** Once something is written, a row only appends its line. *)
Lemma on_data_rest rows csvContent :
  csvContent <> [] ->
  List.fold_left on_data rows csvContent =
    csvContent ++ List.concat (List.map line rows).
Proof.
  revert csvContent. induction rows as [|r rows IH]; intros csvContent Hne; simpl.
  - rewrite List.app_nil_r. reflexivity.
  - assert (Hstep : on_data csvContent r = csvContent ++ line r).
    { unfold on_data. destruct csvContent; [contradiction | reflexivity]. }
    rewrite Hstep, IH, <- List.app_assoc; [reflexivity|].
    destruct csvContent; [contradiction | discriminate].
Qed.

(** X3: the text of [readCsvFile] is empty when the stream emits no row, header
    or not; otherwise it is the header line made of the first row's keys,
    written once, followed by one line per row in order of arrival. *)
Theorem readCsvFile_text :
  readCsvFile [] = [] /\
  forall r rows,
    readCsvFile (r :: rows) =
      header_line r ++ List.concat (List.map line (r :: rows)).
Proof.
  split; [reflexivity|]. intros r rows. unfold readCsvFile. simpl.
  rewrite on_data_rest.
  - unfold on_data. rewrite <- List.app_assoc. reflexivity.
  - unfold on_data, header_line.
    destruct (join (js ",") (keys r)); discriminate.
Qed.

(** X4: a written line, split again at its commas, has one field per value and
    one more per comma inside a value: the values come back exactly when
    none of them contains a comma, and otherwise the fields are more than
    the header's. *)
Theorem written_line_read_back v vs :
  List.length (split (js ",") (join (js ",") (v :: vs))) =
    (List.length (v :: vs) + commas_inside (v :: vs))%nat /\
  (Forall (fun x => ~ In COMMA x) (v :: vs) ->
   split (js ",") (join (js ",") (v :: vs)) = v :: vs).
Proof.
  change (js ",") with [COMMA]. split.
  - unfold split. rewrite CsvFacts.length_split_from_single.
    fold (commas (join [COMMA] (v :: vs))).
    rewrite TextFacts.commas_join. simpl. lia.
  - apply TextFacts.split_join.
Qed.

Lemma written_line_read_back_witness :
  split (js ",") (join (js ",") [js "Ana"; js "ana@x.edu"; js "Present"]) =
    [js "Ana"; js "ana@x.edu"; js "Present"].
Proof.
  apply (proj2 (written_line_read_back (js "Ana") [js "ana@x.edu"; js "Present"])).
  repeat constructor; vm_compute; intuition discriminate.
Defined.

End CsvReaderFacts.

(* ===================================================================== *)
(** ** Facts about [processRecentTrends] *)
(* ===================================================================== *)

Module TrendsFacts.
Import Trends.

Lemma map_get_set_same d t m : map_get d (map_set d t m) = Some t.
Proof.
  induction m as [|[d0 t0] m IH]; simpl.
  - rewrite String.eqb_refl. reflexivity.
  - destruct (String.eqb_spec d d0) as [->|Hne]; simpl.
    + rewrite String.eqb_refl. reflexivity.
    + destruct (String.eqb_spec d d0); [contradiction | exact IH].
Qed.

Lemma map_get_set_other d d' t m :
  d' <> d -> map_get d' (map_set d t m) = map_get d' m.
Proof.
  intros Hne. induction m as [|[d0 t0] m IH]; simpl.
  - destruct (String.eqb_spec d' d); [contradiction | reflexivity].
  - destruct (String.eqb_spec d d0) as [->|Hd]; simpl.
    + destruct (String.eqb_spec d' d0); [contradiction | reflexivity].
    + destruct (String.eqb_spec d' d0); [reflexivity | exact IH].
Qed.

Lemma in_keys_map_set d t m x :
  In x (List.map fst (map_set d t m)) <-> x = d \/ In x (List.map fst m).
Proof.
  induction m as [|[d0 t0] m IH]; simpl; [intuition congruence|].
  destruct (String.eqb_spec d d0) as [->|Hne]; simpl; [intuition congruence|].
  rewrite IH. intuition congruence.
Qed.

Lemma NoDup_map_set d t m :
  List.NoDup (List.map fst m) -> List.NoDup (List.map fst (map_set d t m)).
Proof.
  induction m as [|[d0 t0] m IH]; simpl; intros Hnd.
  - apply List.NoDup_cons; [simpl; tauto | apply List.NoDup_nil].
  - inversion Hnd as [|? ? Hnotin Hrest]; subst.
    destruct (String.eqb_spec d d0) as [->|Hne]; simpl.
    + apply List.NoDup_cons; assumption.
    + apply List.NoDup_cons; [|apply IH; exact Hrest].
      rewrite in_keys_map_set. intros [Heq | Hin]; [congruence | contradiction].
Qed.

Lemma map_get_in d t m :
  List.NoDup (List.map fst m) -> (In (d, t) m <-> map_get d m = Some t).
Proof.
  induction m as [|[d0 t0] m IH]; simpl; intros Hnd; [split; [tauto | discriminate]|].
  inversion Hnd as [|? ? Hnotin Hrest]; subst.
  destruct (String.eqb_spec d d0) as [->|Hne].
  - split.
    + intros [[= <-] | Hin]; [reflexivity|].
      exfalso. apply Hnotin. apply (List.in_map fst) in Hin. exact Hin.
    + intros [= <-]. now left.
  - rewrite <- (IH Hrest). split; [intros [[= ? ?] | Hin]; [congruence | exact Hin]|].
    intros Hin. now right.
Qed.

Lemma trendMap_snoc records r :
  trendMap (records ++ [r]) = count_record (trendMap records) r.
Proof. unfold trendMap. rewrite List.fold_left_app. reflexivity. Qed.

Lemma records_on_snoc d records r :
  records_on d (records ++ [r]) =
    records_on d records ++ (if String.eqb d (day r) then [r] else []).
Proof. unfold records_on. rewrite List.filter_app. reflexivity. Qed.

Lemma present_on_nil d records :
  records_on d records = [] -> present_on d records = [].
Proof. unfold present_on. intros ->. reflexivity. Qed.

Lemma NoDup_trendMap records : List.NoDup (List.map fst (trendMap records)).
Proof.
  induction records as [|r records IH] using List.rev_ind; [constructor|].
  rewrite trendMap_snoc. apply NoDup_map_set. exact IH.
Qed.

(** The counters of a day are the numbers of its records and of its present
    records; a day without records has no entry. *)
Lemma trendMap_get d records : map_get d (trendMap records) = counted d records.
Proof.
  induction records as [|r records IH] using List.rev_ind; [reflexivity|].
  rewrite trendMap_snoc. unfold count_record.
  destruct (String.eqb_spec d (day r)) as [->|Hne].
  - rewrite map_get_set_same, IH. unfold counted, present_on.
    rewrite records_on_snoc, String.eqb_refl, List.filter_app.
    remember (records_on (day r) records) as on eqn:Hon.
    destruct on as [|r0 rs]; simpl;
      destruct (is_present (status r)); simpl;
      rewrite ?List.length_app; simpl; do 2 f_equal; lia.
  - rewrite map_get_set_other by exact Hne. rewrite IH.
    unfold counted, present_on. rewrite records_on_snoc.
    destruct (String.eqb_spec d (day r)); [contradiction|].
    rewrite List.app_nil_r. reflexivity.
Qed.

Section Sorted.
Variable localeCompare : string -> string -> Z.

Lemma insert_by_date_perm {A : Type} (x : string * A) l :
  Permutation (insert_by_date localeCompare x l) (x :: l).
Proof.
  induction l as [|y l IH]; simpl; [reflexivity|].
  destruct (Z.leb (localeCompare (fst x) (fst y)) 0); [reflexivity|].
  rewrite IH. apply perm_swap.
Qed.

Lemma sort_by_date_perm {A : Type} (l : list (string * A)) :
  Permutation (sort_by_date localeCompare l) l.
Proof.
  induction l as [|x l IH]; simpl; [reflexivity|].
  rewrite insert_by_date_perm. constructor. exact IH.
Qed.

(** X5: one entry per day that has records, with the percentage of its present
    records among all its records; the branch for a zero total is never
    taken, and the order of the comparison plays no part in this. *)
Theorem trend_entries records d a :
  In (d, a) (processRecentTrends localeCompare records) <->
  records_on d records <> [] /\
  a = percentage (List.length (present_on d records))
        (List.length (records_on d records)).
Proof.
  unfold processRecentTrends.
  assert (Hperm := sort_by_date_perm
    (List.map (fun entry => (fst entry, attendance (snd entry))) (trendMap records))).
  split.
  - intros Hin. apply (Permutation_in _ Hperm) in Hin.
    apply List.in_map_iff in Hin as ([d0 t] & [= <- <-] & Hin).
    apply (map_get_in _ _ _ (NoDup_trendMap records)) in Hin.
    rewrite trendMap_get in Hin. unfold counted in Hin.
    destruct (records_on d0 records) as [|r0 rs] eqn:Hon; [discriminate|].
    injection Hin as <-. split; [discriminate | reflexivity].
  - intros [Hsome ->].
    apply (Permutation_in _ (Permutation_sym Hperm)).
    apply List.in_map_iff.
    exists (d, {| present := List.length (present_on d records);
                  total := List.length (records_on d records) |}).
    split.
    + unfold attendance. simpl.
      destruct (records_on d records); [contradiction | reflexivity].
    + apply (map_get_in _ _ _ (NoDup_trendMap records)).
      rewrite trendMap_get. unfold counted.
      destruct (records_on d records); [contradiction | reflexivity].
Qed.

(** The comparison is a total preorder. *)
Hypothesis localeCompare_total :
  forall a b, (localeCompare a b <= 0)%Z \/ (localeCompare b a <= 0)%Z.
Hypothesis localeCompare_trans :
  forall a b c, (localeCompare a b <= 0)%Z -> (localeCompare b c <= 0)%Z ->
    (localeCompare a c <= 0)%Z.

Let before {A : Type} (x y : string * A) : Prop :=
  (localeCompare (fst x) (fst y) <= 0)%Z.

Lemma insert_by_date_sorted {A : Type} (x : string * A) l :
  StronglySorted before l ->
  StronglySorted before (insert_by_date localeCompare x l).
Proof using localeCompare_total localeCompare_trans.
  induction l as [|y l IH]; simpl; intros Hs.
  - constructor; constructor.
  - inversion Hs as [|? ? Hrest Hall]; subst.
    destruct (Z.leb_spec (localeCompare (fst x) (fst y)) 0) as [Hle|Hgt].
    + constructor; [exact Hs|]. constructor; [exact Hle|].
      eapply List.Forall_impl; [|exact Hall].
      intros z Hz. exact (localeCompare_trans _ _ _ Hle Hz).
    + constructor; [apply IH; exact Hrest|].
      apply List.Forall_forall. intros z Hz.
      apply (Permutation_in _ (insert_by_date_perm x l)) in Hz.
      destruct Hz as [<- | Hz].
      * destruct (localeCompare_total (fst y) (fst x)) as [H1|H1]; [exact H1 | lia].
      * rewrite List.Forall_forall in Hall. apply Hall. exact Hz.
Qed.

(** X6: the days of the result are pairwise different, and they come in
    ascending order of the comparison when the comparison is a total
    preorder. *)
Theorem trend_days_ascending records :
  List.NoDup (List.map fst (processRecentTrends localeCompare records)) /\
  StronglySorted before (processRecentTrends localeCompare records).
Proof using localeCompare_total localeCompare_trans.
  unfold processRecentTrends. split.
  - eapply Permutation_NoDup.
    + apply Permutation_map. apply Permutation_sym. apply sort_by_date_perm.
    + rewrite List.map_map. simpl. apply NoDup_trendMap.
  - generalize (List.map (fun entry => (fst entry, attendance (snd entry)))
                  (trendMap records)).
    intros l. induction l as [|x l IH]; simpl; [constructor|].
    apply insert_by_date_sorted. exact IH.
Qed.

End Sorted.

Lemma count_record_cons d t m r :
  d <> day r -> count_record ((d, t) :: m) r = (d, t) :: count_record m r.
Proof.
  intros Hne. unfold count_record. simpl.
  destruct (String.eqb_spec (day r) d); [congruence | reflexivity].
Qed.

Lemma sum_totals_count_record m r :
  sum_totals (count_record m r) = S (sum_totals m).
Proof.
  induction m as [|[d t] m IH]; [reflexivity|].
  destruct (String.eqb_spec (day r) d) as [<-|Hne].
  - unfold count_record. simpl. rewrite String.eqb_refl. simpl. lia.
  - rewrite count_record_cons by congruence. simpl. rewrite IH. lia.
Qed.

(** X7: every record is counted once: the totals of all days add up to the
    number of records, and each day's counters satisfy
    [1 <= total] and [present <= total]. *)
Theorem tallies_partition_the_records records :
  sum_totals (trendMap records) = List.length records /\
  forall d t, In (d, t) (trendMap records) ->
    1 <= total t /\ present t <= total t.
Proof.
  split.
  - induction records as [|r records IH] using List.rev_ind; [reflexivity|].
    rewrite trendMap_snoc, sum_totals_count_record, IH, List.length_app.
    simpl. lia.
  - intros d t Hin.
    apply (map_get_in _ _ _ (NoDup_trendMap records)) in Hin.
    rewrite trendMap_get in Hin. unfold counted in Hin.
    destruct (records_on d records) as [|r0 rs] eqn:Hon; [discriminate|].
    injection Hin as <-. cbn [present total]. split; [simpl; lia|].
    change (S (List.length rs)) with (List.length (r0 :: rs)).
    rewrite <- Hon. unfold present_on.
    apply List.filter_length_le.
Qed.

End TrendsFacts.

(* ===================================================================== *)
(** ** Facts about marking attendance *)
(* ===================================================================== *)

Module MarkingFacts.
Import Trends Marking.

(** *** The check of the students of a bulk request *)

Lemma size_list_to_set_le (l : list string) :
  size (list_to_set l : gset string) <= List.length l.
Proof.
  induction l as [|x l IH].
  - rewrite list_to_set_nil, size_empty. simpl. lia.
  - rewrite list_to_set_cons, size_union_alt, size_singleton. simpl.
    assert (Hdiff : size (list_to_set l ∖ {[x]} : gset string)
                    <= size (list_to_set l : gset string)).
    { apply subseteq_size. apply subseteq_difference_l. reflexivity. }
    lia.
Qed.

Lemma size_list_to_set_NoDup (l : list string) :
  size (list_to_set l : gset string) = List.length l -> NoDup l.
Proof.
  induction l as [|x l IH]; intros Hsize; [constructor|].
  rewrite list_to_set_cons in Hsize. simpl in Hsize.
  pose proof (size_list_to_set_le l) as Hle.
  destruct (decide (x ∈ l)) as [Hin|Hnotin].
  - exfalso.
    assert (Heq : ({[x]} ∪ list_to_set l : gset string) = list_to_set l).
    { apply subseteq_union_1_L. apply singleton_subseteq_l.
      apply elem_of_list_to_set. exact Hin. }
    rewrite Heq in Hsize. lia.
  - constructor; [exact Hnotin|]. apply IH.
    rewrite size_union, size_singleton in Hsize; [lia|].
    apply disjoint_singleton_l. rewrite elem_of_list_to_set. exact Hnotin.
Qed.

Lemma bulk_check_NoDup studentIds db :
  size (existingStudents studentIds db) = List.length studentIds ->
  NoDup studentIds.
Proof.
  intros Hsize. apply size_list_to_set_NoDup.
  pose proof (size_list_to_set_le studentIds) as Hle.
  assert (Hle' : size (existingStudents studentIds db)
                 <= size (list_to_set (C := gset string) studentIds)).
  { apply subseteq_size. intros i. unfold existingStudents.
    rewrite elem_of_filter, elem_of_list_to_set. tauto. }
  lia.
Qed.

(** X8: the check [existingStudents.length !== studentIds.length] lets a bulk
    request pass exactly when every requested student exists and no student
    is requested twice: a request that names an existing student twice is
    refused as 'One or more students not found'. *)
Theorem bulk_check_iff studentIds db :
  size (existingStudents studentIds db) = List.length studentIds <->
  NoDup studentIds /\ forall i, i ∈ studentIds -> i ∈ students db.
Proof.
  assert (Hsub : existingStudents studentIds db ⊆ list_to_set studentIds).
  { intros i. unfold existingStudents.
    rewrite elem_of_filter, elem_of_list_to_set. tauto. }
  pose proof (size_list_to_set_le studentIds) as Hle.
  pose proof (subseteq_size _ _ Hsub) as Hle'.
  split.
  - intros Hsize. split.
    + apply size_list_to_set_NoDup. lia.
    + intros i Hi.
      assert (Heq : existingStudents studentIds db = list_to_set studentIds)
        by (apply set_subseteq_size_eq; [exact Hsub | lia]).
      assert (Hin : i ∈ existingStudents studentIds db)
        by (rewrite Heq; apply elem_of_list_to_set; exact Hi).
      unfold existingStudents in Hin. apply elem_of_filter in Hin. tauto.
  - intros [Hnd Hall].
    rewrite <- (size_list_to_set (C := gset string) studentIds Hnd).
    f_equal. apply set_eq. intros i. unfold existingStudents.
    rewrite elem_of_filter, elem_of_list_to_set. split; [tauto|].
    intros Hi. split; [exact Hi | apply Hall; exact Hi].
Qed.

(** *** What the upserts of a bulk request leave in the table *)

Lemma upsert_lookup_same now u sid m att :
  upsert now u sid m att !! (sid, studentId m) =
    Some (written_row now u m (att !! (sid, studentId m))).
Proof. unfold upsert. apply lookup_insert_eq. Qed.

Lemma upsert_lookup_other now u sid m att key :
  key <> (sid, studentId m) -> upsert now u sid m att !! key = att !! key.
Proof. intros Hne. unfold upsert. apply lookup_insert_ne. congruence. Qed.

Lemma fold_upsert_other now u sid records att key :
  (forall m, m ∈ records -> key <> (sid, studentId m)) ->
  List.fold_left (fun att m => upsert now u sid m att) records att !! key =
    att !! key.
Proof.
  revert att. induction records as [|m0 records IH]; intros att Hkey; simpl;
    [reflexivity|].
  rewrite IH by (intros m Hm; apply Hkey; now right).
  apply upsert_lookup_other. apply Hkey. now left.
Qed.

Lemma fold_upsert_same now u sid records att m :
  NoDup (List.map studentId records) -> m ∈ records ->
  List.fold_left (fun att m => upsert now u sid m att) records att
    !! (sid, studentId m) =
    Some (written_row now u m (att !! (sid, studentId m))).
Proof.
  revert att. induction records as [|m0 records IH]; intros att Hnd Hm; simpl.
  - inversion Hm.
  - simpl in Hnd. apply NoDup_cons in Hnd as [Hfirst Hnd].
    apply elem_of_cons in Hm as [->|Hm].
    + rewrite fold_upsert_other; [apply upsert_lookup_same|].
      intros m Hm [= Heq]. apply Hfirst. rewrite Heq.
      apply list_elem_of_fmap. exists m. split; [reflexivity | exact Hm].
    + rewrite (IH _ Hnd Hm). rewrite upsert_lookup_other; [reflexivity|].
      intros [= Heq]. apply Hfirst. rewrite <- Heq.
      apply list_elem_of_fmap. exists m. split; [reflexivity | exact Hm].
Qed.

(** What the first checks of both handlers let through. *)
Lemma admitted_inr {A : Type} user (body : option A) sessionId_of db u data :
  admitted user body sessionId_of db = inr (u, data) ->
  user = Some u /\ body = Some data /\
  exists s, sessions db !! sessionId_of data = Some s /\ manages u s.
Proof.
  unfold admitted. destruct user as [u0|]; [|discriminate].
  destruct body as [d0|]; [|discriminate].
  destruct (sessions db !! sessionId_of d0) as [s|] eqn:Hs; [|discriminate].
  destruct (lacks_permission u0 s) eqn:Hperm; [discriminate|].
  intros [= <- <-]. repeat split. exists s. split; [exact Hs|].
  unfold lacks_permission in Hperm. unfold manages.
  apply andb_false_iff in Hperm as [Hperm | Hteacher];
    [apply andb_false_iff in Hperm as [Hadmin | Hcreator]|].
  - left. apply negb_false_iff in Hadmin.
    destruct (user_role u0); [reflexivity | discriminate | discriminate].
  - right. left. apply negb_false_iff in Hcreator.
    apply String.eqb_eq. exact Hcreator.
  - right. right. apply negb_false_iff in Hteacher.
    destruct (teacherId s) as [t|]; [|discriminate].
    apply String.eqb_eq in Hteacher. congruence.
Qed.

(** What a refusal of the first checks is answered with. *)
Lemma admitted_inl {A : Type} user (body : option A) sessionId_of db refusal :
  admitted user body sessionId_of db = inl refusal ->
  In (status_of refusal) [401; 400; 404; 403].
Proof.
  unfold admitted. destruct user as [u0|]; [|intros [= <-]; simpl; tauto].
  destruct body as [d0|]; [|intros [= <-]; simpl; tauto].
  destruct (sessions db !! sessionId_of d0) as [s|]; [|intros [= <-]; simpl; tauto].
  destruct (lacks_permission u0 s); [|discriminate].
  intros [= <-]. simpl. tauto.
Qed.

(** X9: an accepted bulk request has one entry per student, and afterwards each
    listed student has, in that session, a record with the listed status,
    verified by the user at that time; the records of all other pairs of
    session and student are as before. *)
Theorem bulk_marks_every_listed_student now user body db n db' :
  markBulkAttendance now user body db = (Json 201 n, db') ->
  exists u sid records,
    user = Some u /\ body = Some (sid, records) /\
    n = List.length records /\
    NoDup (List.map studentId records) /\
    (forall m, m ∈ records ->
       attendance db' !! (sid, studentId m) =
         Some (written_row now u m (attendance db !! (sid, studentId m)))) /\
    (forall key, (forall m, m ∈ records -> key <> (sid, studentId m)) ->
       attendance db' !! key = attendance db !! key) /\
    sessions db' = sessions db /\ students db' = students db.
Proof.
  unfold markBulkAttendance.
  destruct (admitted user body fst db) as [refusal | [u [sid records]]] eqn:Hadm.
  - intros [= Hr <-]. apply admitted_inl in Hadm. rewrite Hr in Hadm.
    simpl in Hadm. intuition discriminate.
  - apply admitted_inr in Hadm as (-> & -> & _).
    destruct (decide (size (existingStudents (List.map studentId records) db)
                      = List.length (List.map studentId records)))
      as [Hcheck|_]; [|discriminate].
    intros [= <- <-]. apply bulk_check_NoDup in Hcheck as Hnd.
    exists u, sid, records. simpl. repeat split; try reflexivity.
    + exact Hnd.
    + intros m Hm. apply fold_upsert_same; assumption.
    + intros key Hkey. apply fold_upsert_other. exact Hkey.
Qed.

(** *** Who can write, through the routes *)

Lemma teacherOrAdmin_passes user :
  teacherOrAdmin user = None ->
  exists u, user = Some u /\ (user_role u = TEACHER \/ user_role u = ADMIN).
Proof.
  unfold teacherOrAdmin, authorize. destruct user as [u|]; [|discriminate].
  intros Hpass. exists u. split; [reflexivity|].
  destruct (user_role u); simpl in Hpass; [now right | now left | discriminate].
Qed.

Lemma teacherOrAdmin_refuses user e :
  teacherOrAdmin user = Some e -> statusCode_of e <> 201.
Proof.
  unfold teacherOrAdmin, authorize. destruct user as [u|].
  - destruct (List.existsb _ _); [discriminate|]. intros [= <-]. discriminate.
  - intros [= <-]. discriminate.
Qed.

(** When every upsert resolves, the handlers are those above. *)
Lemma markAttendance_resolving o now user body db :
  (forall m, resolves o m = true) ->
  markAttendance_under o now user body db = markAttendance now user body db.
Proof.
  intros Hall. unfold markAttendance_under, markAttendance.
  destruct (admitted user body fst db) as [refusal | [u [sid m]]]; [reflexivity|].
  rewrite Hall. reflexivity.
Qed.

Lemma markBulkAttendance_resolving o now user body db :
  (forall m, resolves o m = true) ->
  markBulkAttendance_under o now user body db =
  markBulkAttendance now user body db.
Proof.
  intros Hall. unfold markBulkAttendance_under, markBulkAttendance.
  destruct (admitted user body fst db) as [refusal | [u [sid records]]];
    [reflexivity|].
  assert (Hfilter : List.filter (resolves o) records = records).
  { induction records as [|m records IH]; simpl; [reflexivity|].
    rewrite Hall, IH. reflexivity. }
  assert (Hevery : List.forallb (resolves o) records = true).
  { apply forallb_forall. intros m _. apply Hall. }
  rewrite Hfilter, Hevery. reflexivity.
Qed.

Lemma authenticate_outcome now c users res users' :
  authenticate now c users = (res, users') ->
  (exists e, res = inl e /\ users' = users /\ statusCode_of e = 401) \/
  (exists id a,
     c = Token id /\ users !! id = Some a /\ isActive a = true /\
     res = inr {| user_id := id; user_role := account_role a |} /\
     users' = <[id := logged_in now a]> users).
Proof.
  unfold authenticate. destruct c as [| |id].
  - intros [= <- <-]. left. eauto.
  - intros [= <- <-]. left. eauto.
  - destruct (users !! id) as [a|] eqn:Ha.
    + destruct (isActive a) eqn:Hactive; intros [= <- <-].
      * right. exists id, a. repeat split; assumption.
      * left. eauto.
    + intros [= <- <-]. left. eauto.
Qed.

Lemma fold_upsert_changed now u sid records att key :
  List.fold_left (fun att m => upsert now u sid m att) records att !! key
    <> att !! key ->
  exists m, m ∈ records /\ key = (sid, studentId m).
Proof.
  revert att. induction records as [|m0 records IH]; intros att Hne;
    simpl in Hne; [now contradiction Hne|].
  destruct (decide (key = (sid, studentId m0))) as [Hk|Hk].
  - exists m0. split; [apply elem_of_cons; now left | exact Hk].
  - destruct (IH (upsert now u sid m0 att)) as (m & Hm & Hkey).
    + rewrite (upsert_lookup_other now u sid m0 att key Hk). exact Hne.
    + exists m. split; [apply elem_of_cons; now right | exact Hkey].
Qed.

(** What one marking request of an authenticated user can write. *)
Lemma markAttendance_under_writes o now u body db r db' :
  markAttendance_under o now (Some u) body db = (r, db') ->
  sessions db' = sessions db /\ students db' = students db /\
  (forall key, attendance db' !! key <> attendance db !! key ->
     exists sid m s,
       body = Some (sid, m) /\ key = (sid, studentId m) /\
       resolves o m = true /\
       sessions db !! sid = Some s /\ manages u s) /\
  (status_of r = 201 ->
   exists sid m s,
     body = Some (sid, m) /\ sessions db !! sid = Some s /\ manages u s).
Proof.
  unfold markAttendance_under.
  destruct (admitted (Some u) body fst db) as [refusal | [u' [sid m]]] eqn:Hadm.
  - intros [= <- <-]. repeat split.
    + intros key Hne. now contradiction Hne.
    + intros Hst. apply admitted_inl in Hadm. rewrite Hst in Hadm.
      simpl in Hadm. intuition discriminate.
  - apply admitted_inr in Hadm as ([= <-] & -> & s & Hs & Hman).
    destruct (decide (studentId m ∈ students db)) as [Hstu|Hstu].
    + destruct (resolves o m) eqn:Hres; intros [= <- <-]; repeat split.
      * intros key Hne. exists sid, m, s. repeat split; try assumption.
        destruct (decide (key = (sid, studentId m))) as [Hk|Hk]; [exact Hk|].
        exfalso. apply Hne. simpl. apply upsert_lookup_other. exact Hk.
      * intros _. exists sid, m, s. repeat split; assumption.
      * intros key Hne. now contradiction Hne.
      * intros _. exists sid, m, s. repeat split; assumption.
    + intros [= <- <-]. repeat split.
      * intros key Hne. now contradiction Hne.
      * discriminate.
Qed.

Lemma markBulkAttendance_under_writes o now u body db r db' :
  markBulkAttendance_under o now (Some u) body db = (r, db') ->
  sessions db' = sessions db /\ students db' = students db /\
  (forall key, attendance db' !! key <> attendance db !! key ->
     exists sid records m s,
       body = Some (sid, records) /\ m ∈ records /\
       key = (sid, studentId m) /\ resolves o m = true /\
       sessions db !! sid = Some s /\ manages u s) /\
  (status_of r = 201 ->
   exists sid records s,
     body = Some (sid, records) /\ sessions db !! sid = Some s /\ manages u s).
Proof.
  unfold markBulkAttendance_under.
  destruct (admitted (Some u) body fst db) as [refusal | [u' [sid records]]] eqn:Hadm.
  - intros [= <- <-]. repeat split.
    + intros key Hne. now contradiction Hne.
    + intros Hst. apply admitted_inl in Hadm. rewrite Hst in Hadm.
      simpl in Hadm. intuition discriminate.
  - apply admitted_inr in Hadm as ([= <-] & -> & s & Hs & Hman).
    destruct (decide (size (existingStudents (List.map studentId records) db)
                      = List.length (List.map studentId records)));
      intros [= <- <-]; repeat split.
    + intros key Hne. simpl in Hne.
      apply fold_upsert_changed in Hne as (m & Hm & Hkey).
      apply list_elem_of_In, List.filter_In in Hm as [Hm Hres].
      exists sid, records, m, s. repeat split; try assumption.
      apply list_elem_of_In. exact Hm.
    + intros _. exists sid, records, s. repeat split; assumption.
    + intros key Hne. now contradiction Hne.
    + discriminate.
Qed.

Lemma manages_may_mark users sessions id a s sid :
  users !! id = Some a -> isActive a = true ->
  account_role a = TEACHER \/ account_role a = ADMIN ->
  sessions !! sid = Some s ->
  manages {| user_id := id; user_role := account_role a |} s ->
  may_mark users sessions (Token id) sid.
Proof.
  intros Ha Hactive Hrole Hs Hman. exists id, a, s. repeat split; try assumption.
  destruct Hman as [Hadmin | Hown]; [now left|].
  destruct Hrole as [Hteacher | Hadmin]; [right; split; assumption | now left].
Qed.

(** X10: through the routes [POST /mark] and [POST /bulk-mark], whichever
    upserts resolve or reject: the sessions and the students are never
    written; of the users, only the last login of the active account that
    the token names; and a record of attendance changes only when that
    account is an administrator, or a teacher who created the session or
    teaches it, and then only the record of the session and of a student
    that the request lists and whose upsert resolved.  No other account is
    answered with status 201. *)
Theorem marking_needs_permission o now login c users db :
  (forall body r users' db',
     route (markAttendance_under o now) login c body users db = (r, users', db') ->
     sessions db' = sessions db /\ students db' = students db /\
     (users' = users \/
      exists id a,
        c = Token id /\ users !! id = Some a /\ isActive a = true /\
        users' = <[id := logged_in login a]> users) /\
     (forall key, attendance db' !! key <> attendance db !! key ->
        exists sid m,
          body = Some (sid, m) /\ key = (sid, studentId m) /\
          resolves o m = true /\ may_mark users (sessions db) c sid) /\
     (status_of r = 201 ->
      exists sid m,
        body = Some (sid, m) /\ may_mark users (sessions db) c sid)) /\
  (forall body r users' db',
     route (markBulkAttendance_under o now) login c body users db
       = (r, users', db') ->
     sessions db' = sessions db /\ students db' = students db /\
     (users' = users \/
      exists id a,
        c = Token id /\ users !! id = Some a /\ isActive a = true /\
        users' = <[id := logged_in login a]> users) /\
     (forall key, attendance db' !! key <> attendance db !! key ->
        exists sid records m,
          body = Some (sid, records) /\ m ∈ records /\
          key = (sid, studentId m) /\ resolves o m = true /\
          may_mark users (sessions db) c sid) /\
     (status_of r = 201 ->
      exists sid records,
        body = Some (sid, records) /\ may_mark users (sessions db) c sid)).
Proof.
  split; intros body r users' db'; unfold route;
    destruct (authenticate login c users) as [res users1] eqn:Hauth;
    apply authenticate_outcome in Hauth
      as [(e & -> & -> & He) | (id & a & -> & Ha & Hactive & -> & ->)].
  - intros [= <- <- <-].
    refine (conj eq_refl (conj eq_refl (conj (or_introl eq_refl) (conj _ _)))).
    + intros key Hne. now contradiction Hne.
    + simpl. rewrite He. discriminate.
  - assert (Husers : <[id := logged_in login a]> users = users \/
              exists id0 a0,
                Token id = Token id0 /\ users !! id0 = Some a0 /\
                isActive a0 = true /\
                <[id := logged_in login a]> users = <[id0 := logged_in login a0]> users)
      by (right; exists id, a; repeat split; assumption).
    destruct (teacherOrAdmin _) as [e|] eqn:Hrole.
    + intros [= <- <- <-].
      refine (conj eq_refl (conj eq_refl (conj Husers (conj _ _)))).
      * intros key Hne. now contradiction Hne.
      * intros Hst. exfalso. exact (teacherOrAdmin_refuses _ _ Hrole Hst).
    + apply teacherOrAdmin_passes in Hrole as (u & [= <-] & Hrole).
      simpl in Hrole.
      destruct (markAttendance_under o now _ body db) as [r0 db0] eqn:Hrun.
      intros [= <- <- <-].
      apply markAttendance_under_writes in Hrun
        as (Hsessions & Hstudents & Hwrites & Hdone).
      refine (conj Hsessions (conj Hstudents (conj Husers (conj _ _)))).
      * intros key Hne.
        destruct (Hwrites key Hne) as (sid & m & s & -> & -> & Hres & Hs & Hman).
        exists sid, m. split; [reflexivity|]. split; [reflexivity|].
        split; [exact Hres|].
        exact (manages_may_mark _ _ _ _ _ _ Ha Hactive Hrole Hs Hman).
      * intros Hst. destruct (Hdone Hst) as (sid & m & s & -> & Hs & Hman).
        exists sid, m. split; [reflexivity|].
        exact (manages_may_mark _ _ _ _ _ _ Ha Hactive Hrole Hs Hman).
  - intros [= <- <- <-].
    refine (conj eq_refl (conj eq_refl (conj (or_introl eq_refl) (conj _ _)))).
    + intros key Hne. now contradiction Hne.
    + simpl. rewrite He. discriminate.
  - assert (Husers : <[id := logged_in login a]> users = users \/
              exists id0 a0,
                Token id = Token id0 /\ users !! id0 = Some a0 /\
                isActive a0 = true /\
                <[id := logged_in login a]> users = <[id0 := logged_in login a0]> users)
      by (right; exists id, a; repeat split; assumption).
    destruct (teacherOrAdmin _) as [e|] eqn:Hrole.
    + intros [= <- <- <-].
      refine (conj eq_refl (conj eq_refl (conj Husers (conj _ _)))).
      * intros key Hne. now contradiction Hne.
      * intros Hst. exfalso. exact (teacherOrAdmin_refuses _ _ Hrole Hst).
    + apply teacherOrAdmin_passes in Hrole as (u & [= <-] & Hrole).
      simpl in Hrole.
      destruct (markBulkAttendance_under o now _ body db) as [r0 db0] eqn:Hrun.
      intros [= <- <- <-].
      apply markBulkAttendance_under_writes in Hrun
        as (Hsessions & Hstudents & Hwrites & Hdone).
      refine (conj Hsessions (conj Hstudents (conj Husers (conj _ _)))).
      * intros key Hne.
        destruct (Hwrites key Hne)
          as (sid & records & m & s & -> & Hm & -> & Hres & Hs & Hman).
        exists sid, records, m. split; [reflexivity|]. split; [exact Hm|].
        split; [reflexivity|]. split; [exact Hres|].
        exact (manages_may_mark _ _ _ _ _ _ Ha Hactive Hrole Hs Hman).
      * intros Hst. destruct (Hdone Hst) as (sid & records & s & -> & Hs & Hman).
        exists sid, records. split; [reflexivity|].
        exact (manages_may_mark _ _ _ _ _ _ Ha Hactive Hrole Hs Hman).
Qed.

(** *** Marking the same student again *)

(** X11: a second mark of the same student in the same session keeps the one
    record of the pair: it is the record the first mark left with its
    [verifiedAt] and its [updatedAt] set to the later time, every other
    column as it was.  Marked twice at one time, the table is as after the
    first mark. *)
Theorem marking_again now1 now2 u sid m db db1 :
  markAttendance now1 (Some u) (Some (sid, m)) db = (Json 201 1, db1) ->
  exists row,
    attendance db1 !! (sid, studentId m) = Some row /\
    markAttendance now2 (Some u) (Some (sid, m)) db1 =
      (Json 201 1,
       with_attendance
         (<[(sid, studentId m) := verified_at now2 row]> (attendance db1)) db1) /\
    (now2 = now1 ->
     markAttendance now2 (Some u) (Some (sid, m)) db1 = (Json 201 1, db1)).
Proof.
  unfold markAttendance.
  destruct (admitted (Some u) (Some (sid, m)) fst db) as [refusal | [u' [sid' m']]] eqn:Hadm.
  - intros [= Hr _]. apply admitted_inl in Hadm. rewrite Hr in Hadm.
    simpl in Hadm. intuition discriminate.
  - pose proof Hadm as Hadm0.
    apply admitted_inr in Hadm as ([= <-] & [= <- <-] & s & Hs & Hman).
    destruct (decide (studentId m ∈ students db)) as [Hstu|]; [|discriminate].
    intros [= <-].
    assert (Hadm1 : admitted (Some u) (Some (sid, m)) fst
                      (with_attendance (upsert now1 u sid m (attendance db)) db)
                    = inr (u, (sid, m))) by exact Hadm0.
    rewrite Hadm1. simpl.
    destruct (decide (studentId m ∈ students db)) as [_|]; [|contradiction].
    set (row := written_row now1 u m (attendance db !! (sid, studentId m))).
    assert (Hsecond :
      upsert now2 u sid m (upsert now1 u sid m (attendance db)) =
      <[(sid, studentId m) := verified_at now2 row]>
        (upsert now1 u sid m (attendance db))).
    { unfold upsert at 1. rewrite upsert_lookup_same. fold row. f_equal.
      unfold written_row at 1, verified_at. unfold row, written_row.
      destruct (attendance db !! (sid, studentId m)) as [old|];
        destruct (mark_notes m); reflexivity. }
    exists row. split; [apply upsert_lookup_same|]. split.
    + unfold with_attendance at 1 3. simpl. rewrite Hsecond. reflexivity.
    + intros ->. unfold with_attendance. simpl. rewrite Hsecond.
      do 2 f_equal.
      apply insert_id. rewrite upsert_lookup_same. fold row. f_equal.
      unfold verified_at, row, written_row.
      destruct (attendance db !! (sid, studentId m)); reflexivity.
Qed.

(** X12: a mark on an existing record replaces its status (and its notes, when
    the request has notes) but leaves its [aiMethod], [confidence] and
    [markedAt] as they were: a record created by the matching keeps its
    method and confidence after a manual correction. *)
Theorem correction_keeps_provenance now u sid m db db' old :
  attendance db !! (sid, studentId m) = Some old ->
  markAttendance now (Some u) (Some (sid, m)) db = (Json 201 1, db') ->
  exists row,
    attendance db' !! (sid, studentId m) = Some row /\
    att_status row = status m /\
    aiMethod row = aiMethod old /\ confidence row = confidence old /\
    markedAt row = markedAt old /\
    (mark_notes m = None -> notes row = notes old) /\
    size (attendance db') = size (attendance db).
Proof.
  intros Hold. unfold markAttendance.
  destruct (admitted (Some u) (Some (sid, m)) fst db) as [refusal | [u' [sid' m']]] eqn:Hadm.
  - intros [= Hr _]. apply admitted_inl in Hadm. rewrite Hr in Hadm.
    simpl in Hadm. intuition discriminate.
  - apply admitted_inr in Hadm as ([= <-] & [= <- <-] & _).
    destruct (decide (studentId m ∈ students db)); [|discriminate].
    intros [= <-]. simpl.
    exists (written_row now u m (Some old)).
    rewrite upsert_lookup_same, Hold. repeat split.
    + simpl. intros ->. reflexivity.
    + unfold upsert. rewrite Hold.
      assert (Hdom : dom (<[(sid, studentId m) := written_row now u m (Some old)]>
                            (attendance db)) = dom (attendance db)).
      { rewrite dom_insert_L. apply subseteq_union_1_L.
        apply singleton_subseteq_l. apply elem_of_dom. eauto. }
      rewrite <- !size_dom, Hdom. reflexivity.
Qed.

End MarkingFacts.

(* ===================================================================== *)
(** ** Facts about the security middleware *)
(* ===================================================================== *)

Module SecurityFacts.
Import JsString CsvReader Security.

Lemma is_prefix_spec p s :
  is_prefix p s = true <-> exists post, s = p ++ post.
Proof.
  revert s. induction p as [|a p IH]; intros s; simpl.
  - split; [intros _; exists s; reflexivity | reflexivity].
  - destruct s as [|b s].
    + split; [discriminate | intros (post & Hs); discriminate].
    + rewrite andb_true_iff, N.eqb_eq, IH. split.
      * intros (-> & post & ->). exists post. reflexivity.
      * intros (post & [= -> ->]). split; [reflexivity | exists post; reflexivity].
Qed.

(** [includes] finds the needle wherever it stands. *)
Lemma includes_spec needle hay :
  includes needle hay = true <-> exists pre post, hay = pre ++ needle ++ post.
Proof.
  induction hay as [|c hay IH]; simpl.
  - rewrite orb_false_r, is_prefix_spec. split.
    + intros (post & Hs). exists [], post. exact Hs.
    + intros (pre & post & Hs). destruct pre as [|a pre]; [|discriminate].
      exists post. exact Hs.
  - rewrite orb_true_iff, is_prefix_spec, IH. split.
    + intros [(post & Hs) | (pre & post & ->)].
      * exists [], post. exact Hs.
      * exists (c :: pre), post. reflexivity.
    + intros (pre & post & Hs). destruct pre as [|a pre].
      * left. exists post. exact Hs.
      * right. injection Hs as _ ->. exists pre, post. reflexivity.
Qed.

(** X13: [validateRequest] lets a request pass exactly when it has a user agent
    and, for POST, PUT and PATCH, a content type in which one of the three
    allowed media types occurs somewhere: the content type of other methods
    is not looked at, and the allowed type may be surrounded by anything,
    such as parameters. *)
Theorem validateRequest_passes_iff req :
  validateRequest req = Proceed <->
  header_missing (user_agent req) = false /\
  (has_body (method req) = false \/
   exists contentType type pre post,
     content_type req = Some contentType /\ In type allowedTypes /\
     contentType = pre ++ type ++ post).
Proof.
  unfold validateRequest.
  destruct (header_missing (user_agent req)); [split; [discriminate | intros [? _]; discriminate]|].
  destruct (has_body (method req)); [|split; [intros _; split; [reflexivity | now left] | reflexivity]].
  destruct (content_type req) as [[|c ct]|] eqn:Hct.
  - split; [discriminate|]. intros [_ [? | (ct & type & pre & post & [= <-] & Hin & Hs)]];
      [discriminate|].
    exfalso. destruct pre; [|discriminate].
    simpl in Hin. destruct Hin as [<- | [<- | [<- | []]]]; discriminate.
  - destruct (List.existsb (fun type => includes type (c :: ct)) allowedTypes) eqn:Hex.
    + split; [|reflexivity]. intros _. split; [reflexivity|]. right.
      apply List.existsb_exists in Hex as (type & Hin & Hinc).
      apply includes_spec in Hinc as (pre & post & Hs).
      exists (c :: ct), type, pre, post. repeat split; assumption.
    + split; [discriminate|].
      intros [_ [? | (ct' & type & pre & post & [= <-] & Hin & Hs)]]; [discriminate|].
      exfalso. assert (Htrue : List.existsb (fun type => includes type (c :: ct))
                                 allowedTypes = true).
      { apply List.existsb_exists. exists type. split; [exact Hin|].
        apply includes_spec. exists pre, post. exact Hs. }
      congruence.
  - split; [discriminate|].
    intros [_ [? | (ct & type & pre & post & ? & _)]]; discriminate.
Qed.

(** X14: the origin check reads [CORS_ORIGIN] as a list of entries separated by
    commas and ignores white space around an entry: an origin is allowed
    exactly when the request has none, or it is one of the entries, or one
    entry is the star. *)
Theorem origin_allowed_iff entry entries origin :
  Forall (fun e => ~ In COMMA e) (entry :: entries) ->
  (origin_allowed (join (js ",") (entry :: entries)) origin = true <->
   origin = None \/ origin = Some [] \/
   exists o, origin = Some o /\
     (In o (List.map trim (entry :: entries)) \/
      In (js "*") (List.map trim (entry :: entries)))).
Proof.
  intros Hplain. unfold origin_allowed, allowedOrigins.
  change (js ",") with [COMMA].
  rewrite (TextFacts.split_join COMMA entry entries Hplain).
  destruct origin as [[|c o]|].
  - split; [intros _; right; now left | reflexivity].
  - rewrite orb_true_iff, !bool_decide_eq_true, !list_elem_of_In. split.
    + intros Hin. right. right. exists (c :: o). split; [reflexivity | exact Hin].
    + intros [? | [? | (o' & [= <-] & Hin)]]; [discriminate | discriminate | exact Hin].
  - split; [intros _; now left | reflexivity].
Qed.

End SecurityFacts.

(* ===================================================================== *)
(** ** Facts about the life cycle of a job *)
(* ===================================================================== *)

Module LifecycleFacts.
Import Controller Lifecycle.

Lemma blank_weaken f states states' :
  blank f states -> (forall st, In st states -> In st states') ->
  blank f states'.
Proof. intros (Hst & Hr & He) Hsub. split; [apply Hsub; exact Hst | tauto]. Qed.

(** A call that passes an [await] leaves the other rows alone, and its own
    row fits the position it reaches. *)
Lemma processFileAsync_step_fits id db p db' p' f :
  processFileAsync_step id (db, p) (db', p') ->
  db !! id = Some f -> fits p f ->
  (forall id0, id0 <> id -> db' !! id0 = db !! id0) /\
  exists f', db' !! id = Some f' /\ fits p' f' /\
    fileName f' = fileName f /\
    rank (processingStatus f) <= rank (processingStatus f').
Proof.
  intros Hstep Hf Hfit.
  inversion Hstep; subst; simpl in Hfit;
    try (split; [reflexivity|]; exists f; split; [exact Hf|];
         split; [|split; [reflexivity | lia]]).
  - (* claim resolves *)
    split; [intros id0 Hne; apply lookup_insert_ne; congruence|].
    assert (f0 = f) as -> by congruence.
    exists (claimed f). rewrite lookup_insert_eq. split; [reflexivity|].
    destruct Hfit as ([Hst | []] & Hr & He).
    split; [|split; [reflexivity | simpl; rewrite <- Hst; simpl; lia]].
    split; [simpl; tauto | simpl; tauto].
  - eapply blank_weaken; [exact Hfit | simpl; tauto].
  - exact Hfit.
  - eapply blank_weaken; [exact Hfit | simpl; tauto].
  - exact Hfit.
  - eapply blank_weaken; [exact Hfit | simpl; tauto].
  - exact Hfit.
  - eapply blank_weaken; [exact Hfit | simpl; tauto].
  - (* complete resolves *)
    split; [intros id0 Hne; apply lookup_insert_ne; congruence|].
    assert (f0 = f) as -> by congruence.
    exists (completed result f). rewrite lookup_insert_eq. split; [reflexivity|].
    destruct Hfit as (Hst & Hr & He).
    split; [|split; [reflexivity | simpl; destruct (processingStatus f); simpl; lia]].
    right. left. simpl. split; [reflexivity|]. split; [eauto | exact He].
  - eapply blank_weaken; [exact Hfit | simpl; tauto].
  - (* the update in catch resolves *)
    split; [intros id0 Hne; apply lookup_insert_ne; congruence|].
    assert (f0 = f) as -> by congruence.
    exists (failed message f). rewrite lookup_insert_eq. split; [reflexivity|].
    destruct Hfit as (Hst & Hr & He).
    split; [|split; [reflexivity | simpl; destruct (processingStatus f); simpl; lia]].
    right. right. simpl. split; [reflexivity|]. split; [exact Hr | eauto].
  - left. exact Hfit.
Qed.

Lemma initial_well_formed : well_formed initial.
Proof.
  split.
  - intros id f Hf. simpl in Hf. rewrite lookup_empty in Hf. discriminate.
  - intros id p Hp. simpl in Hp. rewrite lookup_empty in Hp. discriminate.
Qed.

(** One step keeps the rows and their calls fitting, keeps every row, its
    file name included, and moves no status backwards. *)
Lemma step_forward s s' :
  well_formed s -> step s s' ->
  well_formed s' /\
  forall id f, file_uploads s !! id = Some f ->
    exists f', file_uploads s' !! id = Some f' /\
      fileName f' = fileName f /\
      rank (processingStatus f) <= rank (processingStatus f') /\
      (rank (processingStatus f) = 2 -> f' = f).
Proof.
  intros [Hrows Hcalls] Hstep.
  destruct Hstep as [s id name Hfresh | s id p db' p' Hrun Hcall | s].
  - split; [split|].
    + intros id0 f0. simpl. destruct (decide (id = id0)) as [->|Hne].
      * rewrite !lookup_insert_eq. intros [= <-]. exists AtClaim.
        split; [reflexivity|]. simpl. unfold blank. simpl. tauto.
      * rewrite !lookup_insert_ne by assumption. apply Hrows.
    + intros id0 p0. simpl. destruct (decide (id = id0)) as [->|Hne].
      * rewrite !lookup_insert_eq. eauto.
      * rewrite !lookup_insert_ne by assumption. apply Hcalls.
    + intros id0 f0 Hf0. exists f0. simpl.
      rewrite lookup_insert_ne by (intros ->; congruence).
      repeat split; [exact Hf0 | lia].
  - destruct (ControllerFacts.processFileAsync_step_positions _ _ _ _ _ Hcall)
      as [Hopen _].
    destruct (Hcalls id p Hrun) as [f Hf].
    destruct (Hrows id f Hf) as (p0 & Hp0 & Hfit).
    assert (p0 = p) as -> by congruence.
    destruct (processFileAsync_step_fits _ _ _ _ _ _ Hcall Hf Hfit)
      as (Hothers & f' & Hf' & Hfit' & Hname & Hrank).
    split; [split|].
    + intros id0 f0. simpl. destruct (decide (id = id0)) as [<-|Hne].
      * rewrite lookup_insert_eq, Hf'. intros [= <-]. exists p'.
        split; [reflexivity | exact Hfit'].
      * rewrite lookup_insert_ne by assumption.
        rewrite Hothers by congruence. apply Hrows.
    + intros id0 p0. simpl. destruct (decide (id = id0)) as [<-|Hne].
      * rewrite Hf'. eauto.
      * rewrite lookup_insert_ne by assumption.
        rewrite Hothers by congruence. apply Hcalls.
    + intros id0 f0 Hf0. simpl. destruct (decide (id = id0)) as [<-|Hne].
      * assert (f0 = f) as -> by congruence.
        exists f'. repeat split; try assumption.
        intros Hdone. exfalso.
        destruct p; simpl in Hfit; unfold blank in Hfit; simpl in Hfit;
          try (destruct Hfit as (Hst & _);
               repeat (destruct Hst as [Hst|Hst];
                       [rewrite <- Hst in Hdone; discriminate|]);
               contradiction).
        now apply Hopen.
      * exists f0. rewrite Hothers by congruence.
        repeat split; [exact Hf0 | lia].
  - split; [split; assumption|].
    intros id f Hf. exists f. repeat split; [exact Hf | lia].
Qed.

Lemma steps_well_formed s s' : well_formed s -> steps s s' -> well_formed s'.
Proof.
  intros Hwf Hsteps. induction Hsteps as [|s1 s2 s3 Hstep _ IH]; [assumption|].
  apply IH. apply (step_forward _ _ Hwf Hstep).
Qed.

(** X15: in every state the server can reach, a row has a processing result
    exactly when it is COMPLETED and processing errors exactly when it is
    FAILED, and it is in one of these two states only once its call of
    [processFileAsync] has returned. *)
Theorem rows_fit_their_state s id f :
  steps initial s ->
  file_uploads s !! id = Some f ->
  (is_Some (processingResult f) <-> processingStatus f = COMPLETED) /\
  (is_Some (processingErrors f) <-> processingStatus f = FAILED) /\
  (rank (processingStatus f) = 2 -> running s !! id = Some Returned).
Proof.
  intros Hreach Hf.
  destruct (steps_well_formed _ _ initial_well_formed Hreach) as [Hrows _].
  destruct (Hrows id f Hf) as (p & Hp & Hfit).
  assert (Hblank : forall states, blank f states ->
            ~ In COMPLETED states -> ~ In FAILED states ->
            (is_Some (processingResult f) <-> processingStatus f = COMPLETED) /\
            (is_Some (processingErrors f) <-> processingStatus f = FAILED) /\
            rank (processingStatus f) <> 2).
  { intros states (Hst & Hr & He) Hc Hfl. rewrite Hr, He.
    repeat split; try (intros Hs; exfalso; inversion Hs; discriminate).
    - intros Heq. rewrite Heq in Hst. contradiction.
    - intros Heq. rewrite Heq in Hst. contradiction.
    - intros Hrank. destruct (processingStatus f); simpl in Hrank;
        try discriminate; contradiction. }
  assert (Hcase : blank f [PENDING; PROCESSING] \/
                  running s !! id = Some Returned /\
                  ((processingStatus f = COMPLETED /\
                    is_Some (processingResult f) /\ processingErrors f = None) \/
                   (processingStatus f = FAILED /\
                    processingResult f = None /\ is_Some (processingErrors f)))).
  { destruct p; simpl in Hfit;
      try (left; eapply blank_weaken; [exact Hfit | simpl; tauto]).
    destruct Hfit as [Hb | Hdone]; [now left | right; split; assumption]. }
  destruct Hcase as [Hb | (Hret & [(Hst & Hr & He) | (Hst & Hr & He)])].
  - destruct (Hblank _ Hb) as (H1 & H2 & H3);
      [simpl; intuition discriminate | simpl; intuition discriminate |].
    split; [exact H1 | split; [exact H2 | intros Hrank; contradiction]].
  - split; [tauto|]. split; [|intros _; exact Hret].
    rewrite He, Hst. split; [intros [x Hx]; discriminate | discriminate].
  - split; [|split; [tauto | intros _; exact Hret]].
    rewrite Hr, Hst. split; [intros [x Hx]; discriminate | discriminate].
Qed.

(** X16: from any state the server can reach, through any further steps: no row
    is removed or renamed, a status only moves forward, from PENDING to
    PROCESSING to COMPLETED or FAILED, and a row that is COMPLETED or FAILED
    is never written again. *)
Theorem status_moves_forward s s' id f :
  steps initial s -> steps s s' ->
  file_uploads s !! id = Some f ->
  exists f', file_uploads s' !! id = Some f' /\
    fileName f' = fileName f /\
    rank (processingStatus f) <= rank (processingStatus f') /\
    (rank (processingStatus f) = 2 -> f' = f).
Proof.
  intros Hreach Hsteps.
  assert (Hwf := steps_well_formed _ _ initial_well_formed Hreach).
  clear Hreach. revert f.
  induction Hsteps as [s|s1 s2 s3 Hstep _ IH]; intros f Hf.
  - exists f. repeat split; [exact Hf | lia].
  - destruct (step_forward _ _ Hwf Hstep) as [Hwf2 Hmove].
    destruct (Hmove id f Hf) as (f2 & Hf2 & Hname2 & Hrank2 & Hdone2).
    destruct (IH Hwf2 f2 Hf2) as (f3 & Hf3 & Hname3 & Hrank3 & Hdone3).
    exists f3. repeat split; [exact Hf3 | congruence | lia |].
    intros Hdone. rewrite <- (Hdone2 Hdone). apply Hdone3.
    rewrite (Hdone2 Hdone). exact Hdone.
Qed.

End LifecycleFacts.

(* ===================================================================== *)
(** ** More about the endpoint: statuses and malformed replies *)
(* ===================================================================== *)

Module EndpointFacts.
Import JsString JsValue SimpleServer SimpleServerFacts.

Section Endpoint.
Context `{Platform}.

(** With a header and data rows, the request ends with a result and status
    200, or with status 500 and what was thrown. *)
Lemma valid_outcome ask body csv :
  csvData body = CsvText csv ->
  2 <= List.length (parse_csv csv) ->
  (exists r, process_attendance ask body = Success 200 r) \/
  (exists e, process_attendance ask body = Failure 500 (Thrown e)).
Proof.
  intros Hcsv Hlen. unfold process_attendance.
  rewrite (handle_text ask body csv Hcsv Hlen).
  destruct (ask (prompt_for body csv)) as [text|e]; simpl; [|right; eauto].
  destruct (get (parse_reply text) (js "matches")) as [ms|e]; simpl; [|right; eauto].
  destruct (get (parse_reply text) (js "unmatched")) as [us|e]; simpl; [|right; eauto].
  destruct (overall_confidence (parse_reply text)) as [conf|e]; simpl;
    [left; eauto | right; eauto].
Qed.

(** X17: the handler answers with status 400 exactly when the request has no
    CSV text or its text has fewer than two non-blank rows, whatever the
    oracle would do; it answers every other request with status 200 or
    500. *)
Theorem status_400_iff ask body :
  ((exists msg, process_attendance ask body = Failure 400 msg) <->
   csvData body = CsvMissing \/
   exists csv, csvData body = CsvText csv /\ List.length (parse_csv csv) < 2) /\
  (forall st r, process_attendance ask body = Success st r -> st = 200) /\
  (forall st msg, process_attendance ask body = Failure st msg ->
     st = 400 \/ st = 500).
Proof.
  destruct (csvData body) as [|csv|] eqn:Hcsv.
  - assert (Hrun : process_attendance ask body = Failure 400 CsvDataRequired).
    { unfold process_attendance, handle. rewrite Hcsv. reflexivity. }
    rewrite Hrun. split; [split; [intros _; now left | eauto]|].
    split; [discriminate | intros st msg [= <- _]; now left].
  - destruct (Nat.lt_ge_cases (List.length (parse_csv csv)) 2) as [Hlt|Hge].
    + assert (Hrun : exists msg, process_attendance ask body = Failure 400 msg).
      { unfold process_attendance.
        destruct (handle_short ask body csv Hcsv Hlt) as [-> | ->]; eauto. }
      split; [split; [intros _; right; eauto | intros _; exact Hrun]|].
      destruct Hrun as [msg ->].
      split; [discriminate | intros st msg0 [= <- _]; now left].
    + destruct (valid_outcome ask body csv Hcsv Hge) as [[r ->] | [e ->]].
      * split; [split; [intros [msg ?]; discriminate|]|].
        -- intros [? | (csv0 & [= <-] & Hlt)]; [discriminate | lia].
        -- split; [intros st r0 [= <- _]; reflexivity | discriminate].
      * split; [split; [intros [msg ?]; discriminate|]|].
        -- intros [? | (csv0 & [= <-] & Hlt)]; [discriminate | lia].
        -- split; [discriminate | intros st msg [= <- _]; now right].
  - assert (Hrun : process_attendance ask body = Failure 500 (Thrown TypeError)).
    { unfold process_attendance, handle. rewrite Hcsv. reflexivity. }
    rewrite Hrun. split; [split; [intros [msg ?]; discriminate|]|].
    + intros [? | (csv & ? & _)]; discriminate.
    + split; [discriminate | intros st msg [= <- _]; now right].
Qed.

Lemma get_any v k k' x : get v k = Ok x -> exists y, get v k' = Ok y.
Proof. destruct v; simpl; intros Hget; try discriminate; eauto. Qed.

(** A [null] or [undefined] among the matches makes the reduce throw. *)
Lemma reduce_throws_on_null items acc :
  In VNull items \/ In VUndefined items ->
  exists e, reduce add_confidence items acc = Throw e.
Proof.
  revert acc. induction items as [|m items IH]; intros acc Hin;
    [destruct Hin as [[] | []]|].
  simpl. destruct (add_confidence acc m) as [acc'|e] eqn:Hadd; simpl; [|eauto].
  apply IH. destruct Hin as [[-> | Hin] | [-> | Hin]]; auto;
    unfold add_confidence in Hadd; simpl in Hadd; discriminate.
Qed.

(** X18: the catch around the parsing does not cover the shape of what was
    parsed: when the reply is an object whose [matches] is truthy and not
    an array, or an array with a [null] in it, the request fails with
    status 500 although the reply was parsed. *)
Theorem malformed_matches_is_fatal ask body csv text m :
  csvData body = CsvText csv ->
  2 <= List.length (parse_csv csv) ->
  ask (prompt_for body csv) = Ok text ->
  get (parse_reply text) (js "matches") = Ok m ->
  truthy m = true ->
  ((forall items, m <> VArr items) ->
   process_attendance ask body = Failure 500 (Thrown TypeError)) /\
  (forall items, m = VArr items ->
   In VNull items \/ In VUndefined items ->
   exists e, process_attendance ask body = Failure 500 (Thrown e)).
Proof.
  intros Hcsv Hlen Hask Hm Htrue. unfold process_attendance.
  rewrite (handle_text ask body csv Hcsv Hlen), Hask. simpl. rewrite Hm. simpl.
  destruct (get_any _ _ (js "unmatched") _ Hm) as [us ->]. simpl.
  unfold overall_confidence. rewrite Hm. simpl. rewrite Htrue. split.
  - intros Hshape. destruct m; try reflexivity. exfalso. eapply Hshape. reflexivity.
  - intros items -> Hin.
    destruct (reduce_throws_on_null items (VNum PrimFloat.zero) Hin) as [e ->].
    simpl. eauto.
Qed.

(** X19: when the oracle's answer parses to a value without [matches], or
    with a falsy one, the request succeeds with an empty list of matches
    and the overall confidence 0. *)
Theorem missing_matches_is_zero ask body csv text m :
  csvData body = CsvText csv ->
  2 <= List.length (parse_csv csv) ->
  ask (prompt_for body csv) = Ok text ->
  get (parse_reply text) (js "matches") = Ok m ->
  truthy m = false ->
  exists r,
    process_attendance ask body = Success 200 r /\
    matches r = VArr [] /\ confidence r = PrimFloat.zero /\
    totalRows r = List.length (data_rows csv).
Proof.
  intros Hcsv Hlen Hask Hm Hfalse. unfold process_attendance.
  rewrite (handle_text ask body csv Hcsv Hlen), Hask. simpl. rewrite Hm. simpl.
  destruct (get_any _ _ (js "unmatched") _ Hm) as [us ->]. simpl.
  unfold overall_confidence. rewrite Hm. simpl. rewrite Hfalse. simpl.
  eexists. split; [reflexivity|]. simpl. unfold or_else. rewrite Hfalse.
  repeat split.
Qed.

End Endpoint.

End EndpointFacts.

(* ===================================================================== *)
(** ** Facts about the upload request *)
(* ===================================================================== *)

Module UploadFacts.
Import Controller Marking Upload.
Local Open Scope string_scope.

Lemma session_refusal_status sessions u sessionId e :
  session_refusal sessions u sessionId = Some e -> statusCode_of e <> 201.
Proof.
  unfold session_refusal. destruct sessionId as [| |sid]; [discriminate | |].
  - intros [= <-]. discriminate.
  - destruct (sessions !! sid) as [session|]; [|intros [= <-]; discriminate].
    destruct (lacks_permission u session); [|discriminate].
    intros [= <-]. discriminate.
Qed.

Lemma session_refusal_none sessions u sessionId :
  session_refusal sessions u sessionId = None ->
  sessionId = NoSession \/
  exists sid session,
    sessionId = SessionId sid /\ sessions !! sid = Some session /\
    manages u session.
Proof.
  unfold session_refusal. destruct sessionId as [| |sid]; [now left | discriminate|].
  destruct (sessions !! sid) as [session|] eqn:Hs; [|discriminate].
  destruct (lacks_permission u session) eqn:Hperm; [discriminate|].
  intros _. right. exists sid, session. repeat split; [exact Hs|].
  assert (Hadm : admitted (Some u) (Some sid) (fun x => x)
                   {| sessions := sessions; students := ∅; attendance := ∅ |}
                 = inr (u, sid)).
  { unfold admitted. simpl. rewrite Hs, Hperm. reflexivity. }
  apply MarkingFacts.admitted_inr in Hadm as (_ & _ & s0 & Hs0 & Hman).
  simpl in Hs0. congruence.
Qed.

(** X20: through the route [POST /upload], an upload is answered with
    status 201 only for the active account of the token, an administrator
    or a teacher, within both rate limits, with a file that multer lets
    through, and for no session or for a session that exists and that the
    user created, teaches or administers; then exactly one new row is
    created, PENDING, under an id that was not in the table and with the
    name that the storage gave the file, and one call of [processFileAsync]
    is started for it: the upload step of the controller.  Every request
    answered with another status leaves the table of uploads and the calls
    as they are; of the users, only the last login of the token's active
    account is written. *)
Theorem upload_creates_one_pending_job
    now c upload_limit ai_limit allowed sessions id file sessionId
    users s r users' s' :
  upload_route now c upload_limit ai_limit allowed sessions id file sessionId
    users s = (r, users', s') ->
  (status_of r <> 201 -> s' = s) /\
  (status_of r = 201 ->
   exists uid a originalname uniqueSuffix,
     c = Token uid /\ users !! uid = Some a /\ isActive a = true /\
     (account_role a = TEACHER \/ account_role a = ADMIN) /\
     file = File originalname uniqueSuffix /\
     upload_limit = false /\ ai_limit = false /\
     (sessionId = NoSession \/
      exists sid session,
        sessionId = SessionId sid /\ sessions !! sid = Some session /\
        manages {| user_id := uid; user_role := account_role a |} session) /\
     file_uploads s !! id = None /\
     step s s' /\
     file_uploads s' =
       <[id := pending (filename originalname uniqueSuffix)]> (file_uploads s) /\
     running s' = <[id := AtClaim]> (running s)) /\
  (users' = users \/
   exists uid a,
     c = Token uid /\ users !! uid = Some a /\ isActive a = true /\
     users' = <[uid := logged_in now a]> users).
Proof.
  unfold upload_route.
  destruct (authenticate now c users) as [res users1] eqn:Hauth.
  apply MarkingFacts.authenticate_outcome in Hauth
    as [(e & -> & -> & He) | (uid & a & -> & Ha & Hactive & -> & ->)].
  { intros [= <- <- <-]. split; [reflexivity|]. split; [|now left].
    simpl. rewrite He. discriminate. }
  assert (Husers : <[uid := logged_in now a]> users = users \/
            exists uid0 a0,
              Token uid = Token uid0 /\ users !! uid0 = Some a0 /\
              isActive a0 = true /\
              <[uid := logged_in now a]> users = <[uid0 := logged_in now a0]> users)
    by (right; exists uid, a; repeat split; assumption).
  destruct (teacherOrAdmin _) as [e|] eqn:Hrole.
  { intros [= <- <- <-]. split; [reflexivity|]. split; [|exact Husers].
    intros Hst. exfalso.
    exact (MarkingFacts.teacherOrAdmin_refuses _ _ Hrole Hst). }
  apply MarkingFacts.teacherOrAdmin_passes in Hrole as (u & [= <-] & Hrole).
  simpl in Hrole.
  destruct upload_limit;
    [intros [= <- <- <-]; split; [reflexivity|]; split;
       [discriminate | exact Husers]|].
  destruct ai_limit;
    [intros [= <- <- <-]; split; [reflexivity|]; split;
       [discriminate | exact Husers]|].
  unfold uploadFile.
  destruct file as [| | |originalname uniqueSuffix];
    try (intros [= <- <- <-]; split; [reflexivity|]; split;
           [discriminate | exact Husers]).
  destruct (session_refusal sessions _ sessionId) as [e|] eqn:Href.
  { intros [= <- <- <-]. split; [reflexivity|]. split; [|exact Husers].
    intros Hst. exfalso. exact (session_refusal_status _ _ _ _ Href Hst). }
  apply session_refusal_none in Href.
  destruct (file_uploads s !! id) as [f|] eqn:Hid; intros [= <- <- <-].
  { split; [reflexivity|]. split; [discriminate | exact Husers]. }
  split; [intros Hst; now contradiction Hst|]. split; [|exact Husers].
  intros _. exists uid, a, originalname, uniqueSuffix.
  repeat split; auto.
  apply step_uploadFile. exact Hid.
Qed.

End UploadFacts.

(* ===================================================================== *)
(** ** The facts above on concrete inputs *)
(* ===================================================================== *)

Module MoreRuns.
Import JsString JsValue MoreExamples.
Local Open Scope string_scope.

Lemma by_characters_total a b :
  (by_characters a b <= 0)%Z \/ (by_characters b a <= 0)%Z.
Proof.
  unfold by_characters.
  destruct (String_as_OT.compare_spec a b) as [Heq | Hlt | Hgt].
  - left. lia.
  - left. lia.
  - right. unfold String_as_OT.lt in Hgt. rewrite Hgt. lia.
Qed.

Lemma by_characters_le a b :
  (by_characters a b <= 0)%Z <-> a = b \/ String_as_OT.lt a b.
Proof.
  unfold by_characters.
  destruct (String_as_OT.compare_spec a b) as [Heq | Hlt | Hgt].
  - split; [intros _; now left | lia].
  - split; [intros _; now right | lia].
  - split; [lia|]. intros [-> | Hlt]; exfalso.
    + exact (StrictOrder_Irreflexive _ Hgt).
    + exact (StrictOrder_Irreflexive _ (StrictOrder_Transitive _ _ _ Hlt Hgt)).
Qed.

Lemma by_characters_trans a b c :
  (by_characters a b <= 0)%Z -> (by_characters b c <= 0)%Z ->
  (by_characters a c <= 0)%Z.
Proof.
  rewrite !by_characters_le.
  intros [-> | Hab] [-> | Hbc]; auto.
  right. exact (StrictOrder_Transitive _ _ _ Hab Hbc).
Qed.

Lemma trend_days_ascending_witness :
  List.NoDup (List.map fst (Trends.processRecentTrends by_characters week)) /\
  StronglySorted
    (fun x y : string * float => (by_characters (fst x) (fst y) <= 0)%Z)
    (Trends.processRecentTrends by_characters week).
Proof.
  exact (TrendsFacts.trend_days_ascending by_characters
           by_characters_total by_characters_trans week).
Defined.

Lemma bulk_marks_every_listed_student_witness :
  exists u sid records,
    Some teacher = Some u /\
    Some (session_1, [marked student_1 Trends.PRESENT; marked student_2 Trends.PRESENT])
      = Some (sid, records) /\
    2 = List.length records /\
    NoDup (List.map Marking.studentId records) /\
    (forall m, m ∈ records ->
       Marking.attendance school_after_bulk !! (sid, Marking.studentId m) =
         Some (Marking.written_row 5%N u m
                 (Marking.attendance school !! (sid, Marking.studentId m)))) /\
    (forall key, (forall m, m ∈ records -> key <> (sid, Marking.studentId m)) ->
       Marking.attendance school_after_bulk !! key =
         Marking.attendance school !! key) /\
    Marking.sessions school_after_bulk = Marking.sessions school /\
    Marking.students school_after_bulk = Marking.students school.
Proof.
  apply (MarkingFacts.bulk_marks_every_listed_student 5%N (Some teacher)
           (Some (session_1, [marked student_1 Trends.PRESENT; marked student_2 Trends.PRESENT]))
           school 2 school_after_bulk).
  vm_compute. reflexivity.
Defined.

Lemma marking_needs_permission_witness :
  Marking.sessions (snd student_attempt) = Marking.sessions school /\
  Marking.students (snd student_attempt) = Marking.students school /\
  (snd (fst student_attempt) = staff \/
   exists id a,
     Marking.Token "u7" = Marking.Token id /\ staff !! id = Some a /\
     Marking.isActive a = true /\
     snd (fst student_attempt) = <[id := Marking.logged_in 5%N a]> staff) /\
  (forall key,
     Marking.attendance (snd student_attempt) !! key
       <> Marking.attendance school !! key ->
     exists sid m,
       Some (session_1, marked student_1 Trends.PRESENT) = Some (sid, m) /\
       key = (sid, Marking.studentId m) /\
       Marking.resolves all_resolve m = true /\
       Marking.may_mark staff (Marking.sessions school) (Marking.Token "u7") sid).
Proof.
  destruct (MarkingFacts.marking_needs_permission all_resolve 5%N 5%N
              (Marking.Token "u7") staff school) as [Hmark _].
  destruct (Hmark (Some (session_1, marked student_1 Trends.PRESENT))
              (fst (fst student_attempt)) (snd (fst student_attempt))
              (snd student_attempt))
    as (Hsessions & Hstudents & Husers & Hwrites & _).
  - vm_compute. reflexivity.
  - exact (conj Hsessions (conj Hstudents (conj Husers Hwrites))).
Defined.

Lemma marking_again_witness :
  Marking.markAttendance 5%N (Some teacher)
    (Some (session_1, marked student_1 Trends.PRESENT)) school_after_mark =
    (Marking.Json 201 1, school_after_mark).
Proof.
  destruct (MarkingFacts.marking_again 5%N 5%N teacher session_1
              (marked student_1 Trends.PRESENT) school school_after_mark)
    as (row & _ & _ & Hsame).
  - vm_compute. reflexivity.
  - apply Hsame. reflexivity.
Defined.

Lemma correction_keeps_provenance_witness :
  exists row,
    Marking.attendance school_after_correction !! (session_1, student_1) = Some row /\
    Marking.att_status row = Trends.PRESENT /\
    Marking.aiMethod row = Some "ai" /\
    Marking.confidence row = Some 0.75%float /\
    Marking.markedAt row = 3%N /\
    (Marking.mark_notes (marked student_1 Trends.PRESENT) = None ->
     Marking.notes row = Some "from upload") /\
    size (Marking.attendance school_after_correction) =
      size (Marking.attendance school_after_upload).
Proof.
  apply (MarkingFacts.correction_keeps_provenance 5%N teacher session_1
           (marked student_1 Trends.PRESENT) school_after_upload
           school_after_correction matched_record).
  - vm_compute. reflexivity.
  - vm_compute. reflexivity.
Defined.

Lemma origin_allowed_iff_witness :
  Security.origin_allowed
    (CsvReader.join (js ",") configured_origins)
    (Some (js "http://localhost:3001")) = true.
Proof.
  apply (SecurityFacts.origin_allowed_iff
           (js "http://localhost:8080") [js " http://localhost:3001"]
           (Some (js "http://localhost:3001"))).
  - repeat constructor; vm_compute; intuition discriminate.
  - right. right. exists (js "http://localhost:3001").
    split; [reflexivity|]. left. vm_compute. right. left. reflexivity.
Defined.

Lemma rows_fit_their_state_witness :
  (is_Some (Controller.processingResult ControllerExamples.first_row) <->
   Controller.processingStatus ControllerExamples.first_row = Controller.COMPLETED) /\
  (is_Some (Controller.processingErrors ControllerExamples.first_row) <->
   Controller.processingStatus ControllerExamples.first_row = Controller.FAILED) /\
  (Lifecycle.rank (Controller.processingStatus ControllerExamples.first_row) = 2 ->
   Controller.running ControllerExamples.first_completed !! "job-1" =
     Some Controller.Returned).
Proof.
  apply (LifecycleFacts.rows_fit_their_state ControllerExamples.first_completed
           "job-1" ControllerExamples.first_row
           ControllerFacts.first_job_completes).
  reflexivity.
Defined.

Lemma status_moves_forward_witness :
  exists f',
    Controller.file_uploads ControllerExamples.second_failed !! "job-1" = Some f' /\
    Controller.fileName f' = Controller.fileName ControllerExamples.first_row /\
    Lifecycle.rank (Controller.processingStatus ControllerExamples.first_row)
      <= Lifecycle.rank (Controller.processingStatus f') /\
    (Lifecycle.rank (Controller.processingStatus ControllerExamples.first_row) = 2 ->
     f' = ControllerExamples.first_row).
Proof.
  apply (LifecycleFacts.status_moves_forward ControllerExamples.first_completed
           ControllerExamples.second_failed "job-1" ControllerExamples.first_row
           ControllerFacts.first_job_completes ControllerFacts.second_job_fails).
  reflexivity.
Defined.

Lemma malformed_matches_is_fatal_witness :
  @SimpleServer.process_attendance shape_platform
    (Examples.answering string_matches_reply)
    (Examples.upload_of Examples.roster_csv) =
    SimpleServer.Failure 500 (SimpleServer.Thrown TypeError).
Proof.
  apply (proj1 (@EndpointFacts.malformed_matches_is_fatal shape_platform
                  (Examples.answering string_matches_reply)
                  (Examples.upload_of Examples.roster_csv) Examples.roster_csv
                  (Some string_matches_reply) (VStr (js "none"))
                  eq_refl (le_n 2) eq_refl eq_refl eq_refl)).
  intros items. discriminate.
Defined.

Lemma missing_matches_is_zero_witness :
  exists r,
    @SimpleServer.process_attendance shape_platform
      (Examples.answering bare_object_reply)
      (Examples.upload_of Examples.roster_csv) = SimpleServer.Success 200 r /\
    SimpleServer.matches r = VArr [] /\
    SimpleServer.confidence r = PrimFloat.zero /\
    SimpleServer.totalRows r = List.length (SimpleServer.data_rows Examples.roster_csv).
Proof.
  exact (@EndpointFacts.missing_matches_is_zero shape_platform
           (Examples.answering bare_object_reply)
           (Examples.upload_of Examples.roster_csv) Examples.roster_csv
           (Some bare_object_reply) VUndefined
           eq_refl (le_n 2) eq_refl eq_refl eq_refl).
Defined.

Lemma upload_creates_one_pending_job_witness :
  Controller.file_uploads MoreExamples.after_upload =
    <["job-1" := Controller.pending "1719230000000-123456789-roster.csv"]>
      (Controller.file_uploads Controller.initial) /\
  Controller.step Controller.initial MoreExamples.after_upload.
Proof.
  destruct (UploadFacts.upload_creates_one_pending_job
              5%N (Marking.Token "t1") false false "csv, xlsx"
              (Marking.sessions MoreExamples.school) "job-1"
              (Upload.File "roster.csv" "1719230000000-123456789")
              (Upload.SessionId MoreExamples.session_1)
              MoreExamples.staff Controller.initial
              (Marking.Json 201 1)
              (<["t1" := Marking.logged_in 5%N
                           {| Marking.account_role := Marking.TEACHER;
                              Marking.isActive := true;
                              Marking.lastLoginAt := None;
                              Marking.account_updatedAt := 1%N |}]>
                 MoreExamples.staff)
              MoreExamples.after_upload)
    as (_ & Hdone & _).
  - vm_compute. reflexivity.
  - destruct (Hdone eq_refl)
      as (uid & a & originalname & uniqueSuffix & _ & _ & _ & _ & Hfile & _ & _
          & _ & _ & Hstep & Hrows & _).
    injection Hfile as <- <-. split; [exact Hrows | exact Hstep].
Defined.

End MoreRuns.
